(** * Chroma-Key pipeline: [src/ProdReadyChroma.tsx]

    A shallow embedding of the fragment shader, of [hexColorToRGBPct], of
    [init] and of the frame loop of [startProcessing], with the properties
    the specification states about them.

    Numbers.  The shader's [float] values are modelled as real numbers [R]
    (GLSL ES fixes no bit-level format for [mediump float]); the numbers
    JavaScript hands to WebGL are modelled as rationals [Q], which keeps the
    host-side code executable.  Unsigned pixel dimensions are [N]. *)

From Stdlib Require Import Reals Lra Lia.
From Stdlib Require Import QArith ZArith NArith Bool List String Ascii.
Import ListNotations.

(* ================================================================= *)
(** ** GLSL built-ins used by the shader *)

Module GLSL.
Local Open Scope R_scope.

Record vec2 := mkVec2 { x : R; y : R }.
Record vec3 := mkVec3 { r : R; g : R; b : R }.
Record vec4 := mkVec4 { rgb : vec3; a : R }.

(** [clamp(x, minVal, maxVal) = min(max(x, minVal), maxVal)]. *)
Definition clamp (v lo hi : R) : R := Rmin (Rmax v lo) hi.

(** [pow(x, y)]: [x^y] for [0 < x], and [0] at [x = 0] (with [0 < y]).
    GLSL leaves [x < 0] undefined; the shader only calls [pow] on the result
    of [clamp(_, 0., 1.)], see [clamp_range]. *)
Definition pow (v e : R) : R :=
  if Rlt_dec 0 v then Rpower v e else 0.

(** [mix(x, y, a) = x * (1 - a) + y * a], componentwise on [vec3] with a
    scalar weight. *)
Definition mix1 (u v w : R) : R := u * (1 - w) + v * w.

Definition mix (u v : vec3) (w : R) : vec3 :=
  mkVec3 (mix1 (r u) (r v) w) (mix1 (g u) (g v) w) (mix1 (b u) (b v) w).

(** [length(v) = sqrt(v.x^2 + v.y^2)], [distance(p, q) = length(p - q)]. *)
Definition length (v : vec2) : R := sqrt (x v * x v + y v * y v).

Definition distance (p q : vec2) : R :=
  length (mkVec2 (x p - x q) (y p - y q)).

End GLSL.

(* ================================================================= *)
(** ** The fragment shader [fragmentShaderRaw] *)

Module Shader.
Import GLSL.
Local Open Scope R_scope.

(** The uniforms of the program. *)
Record uniforms := mkUniforms {
  tex : vec2 -> vec4;      (* sampler2D tex, read through texture2D *)
  texWidth : R;
  texHeight : R;
  keyColor : vec3;
  similarity : R;
  smoothness : R;
  spill : R
}.

Definition RGBtoUV (c : vec3) : vec2 :=
  mkVec2
    (r c * -0.169 + g c * -0.331 + b c * 0.5 + 0.5)
    (r c * 0.5 + g c * -0.419 + b c * -0.081 + 0.5).

(** Lines 31-32: the matte as a function of the chroma distance.  GLSL
    leaves a division by zero unspecified: the value of the model at
    [smoothness = 0] stands for no result of the shader, and a property that
    depends on the quotient assumes [smoothness <> 0]. *)
Definition fullMask (chromaDist similarity smoothness : R) : R :=
  let baseMask := chromaDist - similarity in
  pow (clamp (baseMask / smoothness) 0 1) 1.5.

(** Lines 31 and 35: the spill weight as a function of the chroma distance;
    as for [fullMask], meaningful for [spill <> 0]. *)
Definition spillVal (chromaDist similarity spill : R) : R :=
  let baseMask := chromaDist - similarity in
  pow (clamp (baseMask / spill) 0 1) 1.5.

Definition chromaDist (u : uniforms) (texCoord : vec2) : R :=
  distance (RGBtoUV (rgb (tex u texCoord))) (RGBtoUV (keyColor u)).

Definition ProcessChromaKey (u : uniforms) (texCoord : vec2) : vec4 :=
  let rgba := tex u texCoord in
  let chromaDist := chromaDist u texCoord in
  let fullMask := fullMask chromaDist (similarity u) (smoothness u) in
  (* rgba.a = fullMask *)
  let rgba := mkVec4 (rgb rgba) fullMask in
  let spillVal := spillVal chromaDist (similarity u) (spill u) in
  let desat :=
    clamp (r (rgb rgba) * 0.2126 + g (rgb rgba) * 0.7152
           + b (rgb rgba) * 0.0722) 0 1 in
  (* rgba.rgb = mix(vec3(desat, desat, desat), rgba.rgb, spillVal) *)
  mkVec4 (mix (mkVec3 desat desat desat) (rgb rgba) spillVal) (a rgba).

(** [main]: [gl_FragColor] for the fragment at [gl_FragCoord]. *)
Definition main (u : uniforms) (gl_FragCoord : vec2) : vec4 :=
  let texCoord :=
    mkVec2 (x gl_FragCoord / texWidth u)
           (1.0 - y gl_FragCoord / texHeight u) in
  ProcessChromaKey u texCoord.

(** A sample program state: a uniformly coloured texture, the key colour
    [#11ff05], and [spill = smoothness]. *)
Definition sampleUniforms : uniforms :=
  mkUniforms (fun _ => mkVec4 (mkVec3 0.2 0.3 0.4) 1) 640 480
             (mkVec3 (17 / 255) 1 (5 / 255)) 0.4 0.1 0.1.

End Shader.

(* ================================================================= *)
(** ** The algorithm as the specification words it (sections 4.1, 4.2) *)

Module Spec.
Import GLSL.
Local Open Scope R_scope.

Definition toChromaPlane (c : vec3) : R * R :=
  (-0.169 * r c - 0.331 * g c + 0.5 * b c + 0.5,
   0.5 * r c - 0.419 * g c - 0.081 * b c + 0.5).

Definition euclideanDistance (p q : R * R) : R :=
  sqrt ((fst p - fst q) ^ 2 + (snd p - snd q) ^ 2).

(** [clamp(x, 0, 1)] by cases. *)
Definition clamp01 (v : R) : R :=
  if Rle_dec v 0 then 0 else if Rle_dec 1 v then 1 else v.

(** [x ^ 1.5] on the non-negative reals: [x * sqrt x]. *)
Definition pow15 (v : R) : R := v * sqrt v.

Definition base (d similarity : R) : R := d - similarity.

Definition alphaMask (d similarity smoothness : R) : R :=
  pow15 (clamp01 (base d similarity / smoothness)).

Definition spillMask (d similarity spill : R) : R :=
  pow15 (clamp01 (base d similarity / spill)).

Definition luma (s : vec3) : R :=
  clamp01 (0.2126 * r s + 0.7152 * g s + 0.0722 * b s).

(** [lerp(a, b, t) = a + (b - a) * t]. *)
Definition lerp1 (u v t : R) : R := u + (v - u) * t.

Definition lerp (u v : vec3) (t : R) : vec3 :=
  mkVec3 (lerp1 (r u) (r v) t) (lerp1 (g u) (g v) t) (lerp1 (b u) (b v) t).

Definition output (s k : vec3) (similarity smoothness spill : R) : vec4 :=
  let d := euclideanDistance (toChromaPlane s) (toChromaPlane k) in
  let l := luma s in
  mkVec4 (lerp (mkVec3 l l l) s (spillMask d similarity spill))
         (alphaMask d similarity smoothness).

End Spec.

(* ================================================================= *)
(** ** JavaScript values and built-ins used by the host code *)

Module JS.
Local Open Scope Q_scope.

(** A JavaScript [number]: a rational, or [NaN].  The infinities are left
    out: the host code divides only by the literal [255]. *)
Inductive number := NaN | Num (q : Q).

(** [a / b]. *)
Definition div (n m : number) : number :=
  match n, m with
  | Num p, Num q => if Qeq_bool q 0 then NaN else Num (p / q)
  | _, _ => NaN
  end.

Definition code (c : ascii) : nat := nat_of_ascii c.

Definition inRange (lo hi c : ascii) : bool :=
  (code lo <=? code c)%nat && (code c <=? code hi)%nat.

(** Case folding of the [i] flag (without [u]): a character is compared
    through its upper-case form.  A code unit outside ASCII is never folded
    onto an ASCII one, so only the letters [a-z] matter here. *)
Definition canonicalize (c : ascii) : ascii :=
  if inRange "a" "z" c then ascii_of_nat (code c - 32) else c.

(** The class [[0-9a-f]] under the [i] flag. *)
Definition classHex (c : ascii) : bool :=
  inRange "0" "9" (canonicalize c) || inRange "A" "F" (canonicalize c).

(** [cls{n}] at the head of [s]: the [n] characters consumed and the rest. *)
Fixpoint repeatClass (cls : ascii -> bool) (n : nat) (s : string)
  : option (string * string) :=
  match n with
  | O => Some (EmptyString, s)
  | S n' =>
      match s with
      | String c s' =>
          if cls c then
            match repeatClass cls n' s' with
            | Some (m, rest) => Some (String c m, rest)
            | None => None
            end
          else None
      | EmptyString => None
      end
  end.

(** [s.match(/^#([0-9a-f]{6})$/i)?.[1]]: capture group 1, or [undefined]
    ([None]) when the string does not match.  Without the [m] flag [$]
    matches at the end of the input only. *)
Definition matchHexColor (s : string) : option string :=
  match s with
  | String "#" hex =>
      match repeatClass classHex 6 hex with
      | Some (group1, EmptyString) => Some group1
      | _ => None
      end
  | _ => None
  end.

(** Truthiness of a [string | undefined]. *)
Definition truthy (o : option string) : bool :=
  match o with
  | Some (String _ _) => true
  | _ => false
  end.

(** [s.substring(start, end)]: the arguments are swapped when out of order
    and the end is cut at the length of [s]. *)
Definition substring (s : string) (i j : nat) : string :=
  String.substring (Nat.min i j) (Nat.max i j - Nat.min i j) s.

Definition isWhiteSpace (c : ascii) : bool :=
  inRange "009" "013" c || (code c =? 32)%nat || (code c =? 160)%nat.

Fixpoint trimStart (s : string) : string :=
  match s with
  | String c s' => if isWhiteSpace c then trimStart s' else s
  | EmptyString => s
  end.

(** The value of a digit in radix 16. *)
Definition hexValue (c : ascii) : option Z :=
  if inRange "0" "9" c then Some (Z.of_nat (code c - 48))
  else if inRange "a" "f" c then Some (Z.of_nat (code c - 87))
  else if inRange "A" "F" c then Some (Z.of_nat (code c - 55))
  else None.

(** The longest prefix of radix-16 digits, read left to right; [None] when
    there is no digit at all. *)
Fixpoint hexDigits (acc : option Z) (s : string) : option Z :=
  match s with
  | String c s' =>
      match hexValue c with
      | Some d =>
          hexDigits (Some (16 * match acc with Some v => v | None => 0 end
                           + d)%Z) s'
      | None => acc
      end
  | EmptyString => acc
  end.

Definition stripHexPrefix (s : string) : string :=
  match s with
  | String "0" (String "x" s') => s'
  | String "0" (String "X" s') => s'
  | _ => s
  end.

(** [parseInt(s, 16)]: leading white space, a sign, an optional [0x], then
    the digits; [NaN] without a digit. *)
Definition parseInt16 (s : string) : number :=
  let s := trimStart s in
  let '(sign, s) :=
    match s with
    | String "-" s' => ((-1)%Z, s')
    | String "+" s' => (1%Z, s')
    | _ => (1%Z, s)
    end in
  match hexDigits None (stripHexPrefix s) with
  | Some v => Num (inject_Z (sign * v))
  | None => NaN
  end.

End JS.

(* ================================================================= *)
(** ** [hexColorToRGBPct] *)

Module Color.
Import JS.
Local Open Scope string_scope.

Definition hexColorToRGBPct (sharpLeadingHex : string)
  : number * number * number :=
  let noSharp := matchHexColor sharpLeadingHex in
  let part (i j : nat) : string :=
    match noSharp with
    | Some h => if truthy noSharp then substring h i j else "0"
    | None => "0"
    end in
  (div (parseInt16 (part 0 2)%nat) (Num 255),
   div (parseInt16 (part 2 4)%nat) (Num 255),
   div (parseInt16 (part 4 6)%nat) (Num 255)).

(** The pattern in the words of the specification: a sharp sign followed by
    exactly six characters, each a hexadecimal digit of either case. *)
Definition isHexDigit (c : ascii) : Prop :=
  In c (list_ascii_of_string "0123456789abcdefABCDEF").

Definition wellFormed (s : string) : Prop :=
  exists h : string,
    s = String "#" h /\ String.length h = 6%nat /\
    Forall isHexDigit (list_ascii_of_string h).

(** The value of a two-digit hexadecimal byte. *)
Definition digitValue (c : ascii) : Z :=
  match index 0 (String c EmptyString) "0123456789abcdef",
        index 0 (String c EmptyString) "0123456789ABCDEF" with
  | Some n, _ => Z.of_nat n
  | None, Some n => Z.of_nat n
  | None, None => 0
  end.

Definition byteValue (hi lo : ascii) : Z := 16 * digitValue hi + digitValue lo.

(** A component within [[0, 1]]. *)
Definition inUnit (n : number) : Prop :=
  match n with
  | Num q => (0 <= q /\ q <= 1)%Q
  | NaN => False
  end.

(** Equality of numbers, up to the representation of the fraction. *)
Definition numEq (n m : number) : Prop :=
  match n, m with
  | Num p, Num q => (p == q)%Q
  | NaN, NaN => True
  | _, _ => False
  end.

(** [isHexDigit] as a test. *)
Definition isHexDigitb (c : ascii) : bool :=
  existsb (Ascii.eqb c) (list_ascii_of_string "0123456789abcdefABCDEF").

(** Componentwise [numEq]. *)
Definition rgbEq (p q : number * number * number) : Prop :=
  numEq (fst (fst p)) (fst (fst q)) /\ numEq (snd (fst p)) (snd (fst q))
  /\ numEq (snd p) (snd q).

(** A two-digit hexadecimal byte divided by 255. *)
Definition byteOf (hi lo : ascii) : number :=
  Num (inject_Z (byteValue hi lo) / 255).

Definition black : number * number * number := (Num 0, Num 0, Num 0).

(** The string [#c1c2c3c4c5c6]. *)
Definition sharp6 (c1 c2 c3 c4 c5 c6 : ascii) : string :=
  String "#" (String c1 (String c2 (String c3 (String c4 (String c5
    (String c6 EmptyString)))))).

End Color.

(* ================================================================= *)
(** ** The WebGL calls the host code issues *)

Module WebGL.
Import JS.

Inductive shaderType := VERTEX_SHADER | FRAGMENT_SHADER.

(** The uniforms, named as [getUniformLocation] looks them up. *)
Inductive uniform :=
  | tex | texWidth | texHeight | keyColor | similarity | smoothness | spill.

Inductive texParam := TEXTURE_WRAP_S | TEXTURE_WRAP_T | TEXTURE_MIN_FILTER.
Inductive texValue := CLAMP_TO_EDGE | LINEAR.
Inductive drawMode := TRIANGLE_FAN.

(** A state-changing call on the rendering context, with the arguments the
    host code passes. *)
Inductive glCall :=
  | shaderSource (t : shaderType)
  | compileShader (t : shaderType)
  | attachShader (t : shaderType)
  | linkProgram
  | useProgram
  | bindBuffer
  | bufferData (vertices : list Z)
  | vertexAttribPointer (size : Z)
  | enableVertexAttribArray
  | activeTexture (unit : Z)
  | bindTexture
  | texParameteri (p : texParam) (v : texValue)
  | viewport (x y : Z) (w h : N)
  | texImage2D (w h : N)            (* upload of the current video frame *)
  | uniform1i (u : uniform) (v : Z)
  | uniform1f (u : uniform) (v : number)
  | uniform3f (u : uniform) (v0 v1 v2 : number)
  | drawArrays (m : drawMode) (first count : Z)
  | deleteProgram.

(** What the driver answers during [init]. *)
Record Driver := mkDriver {
  createShader : shaderType -> bool;      (* [false]: returns null *)
  COMPILE_STATUS : shaderType -> bool;
  shaderInfoLog : shaderType -> string;
  createProgram : bool;                   (* [false]: returns null *)
  LINK_STATUS : bool
}.

Definition isDraw (c : glCall) : bool :=
  match c with drawArrays _ _ _ => true | _ => false end.

Definition isViewport (c : glCall) : bool :=
  match c with viewport _ _ _ _ => true | _ => false end.

End WebGL.

(* ================================================================= *)
(** ** Effects of the set-up code: calls, console errors, exceptions *)

Module Eff.
Import WebGL.

Record log := mkLog { calls : list glCall; errors : list string }.

(** [inl msg] is [throw new Error(msg)]. *)
Definition M (A : Type) : Type := log -> log * (string + A).

Definition ret {A} (v : A) : M A := fun l => (l, inr v).

Definition bind {A B} (m : M A) (k : A -> M B) : M B :=
  fun l =>
    match m l with
    | (l', inr v) => k v l'
    | (l', inl e) => (l', inl e)
    end.

Definition throw {A} (msg : string) : M A := fun l => (l, inl msg).

Definition gl (c : glCall) : M unit :=
  fun l => (mkLog (calls l ++ [c]) (errors l), inr tt).

Definition console_error (msg : string) : M unit :=
  fun l => (mkLog (calls l) (errors l ++ [msg]), inr tt).

Definition when (c : bool) (m : M unit) : M unit := if c then m else ret tt.

Definition run {A} (m : M A) : log * (string + A) := m (mkLog [] []).

End Eff.

Declare Scope eff_scope.
Delimit Scope eff_scope with eff.
Notation "m ;; k" := (Eff.bind m (fun _ => k))
  (at level 61, right associativity) : eff_scope.

(* ================================================================= *)
(** ** [init], the frame loop and the component's effect *)

Module Pipeline.
Import JS WebGL Color.
Local Open Scope string_scope.

(** [init(gl)]: returns the program, or throws. *)
Definition init (d : Driver) : Eff.M unit :=
  (Eff.when (negb (createShader d VERTEX_SHADER))
     (Eff.throw "Could not create VERTEX_SHADER") ;;
   Eff.gl (shaderSource VERTEX_SHADER) ;;
   Eff.gl (compileShader VERTEX_SHADER) ;;
   Eff.when (negb (createShader d FRAGMENT_SHADER))
     (Eff.throw "Could not create FRAGMENT_SHADER") ;;
   Eff.gl (shaderSource FRAGMENT_SHADER) ;;
   Eff.gl (compileShader FRAGMENT_SHADER) ;;
   Eff.when (negb (COMPILE_STATUS d FRAGMENT_SHADER))
     (Eff.console_error (shaderInfoLog d FRAGMENT_SHADER)) ;;
   Eff.when (negb (createProgram d))
     (Eff.throw "Could not create WebGL Program") ;;
   Eff.gl (attachShader VERTEX_SHADER) ;;
   Eff.gl (attachShader FRAGMENT_SHADER) ;;
   Eff.gl linkProgram ;;
   Eff.gl useProgram ;;
   Eff.gl bindBuffer ;;
   Eff.gl (bufferData [-1; 1; -1; -1; 1; -1; 1; 1]%Z) ;;
   Eff.gl (vertexAttribPointer 2) ;;
   Eff.gl enableVertexAttribArray ;;
   Eff.gl (activeTexture 0) ;;
   Eff.gl bindTexture ;;
   Eff.gl (texParameteri TEXTURE_WRAP_S CLAMP_TO_EDGE) ;;
   Eff.gl (texParameteri TEXTURE_WRAP_T CLAMP_TO_EDGE) ;;
   Eff.gl (texParameteri TEXTURE_MIN_FILTER LINEAR) ;;
   Eff.ret tt)%eff.

(** The mutable fields of [WGL]; [gl] and [prog] are handles, [start] and
    [stop] are the functions below. *)
Record WGL := mkWGL {
  stopped : bool;
  useRequestVideoFrameCallback : bool;
  requestVideoFrameCallbackIsAvailable : bool
}.

Record LiveTweakableParams := mkParams {
  keycolor : number * number * number;
  similarity : number;
  smoothness : number;
  spill : number
}.

(** The source video element: its native size, and whether it has
    [requestVideoFrameCallback]. *)
Record Video := mkVideo {
  videoWidth : N;
  videoHeight : N;
  hasRequestVideoFrameCallback : bool
}.

Record Canvas := mkCanvas { width : N; height : N }.

(** A callback waiting in the browser: a video-frame callback, the timer of
    [setTimeout], or an animation-frame callback. *)
Inductive task := VideoFrameCallback | Timeout | AnimationFrame.

(** The pipeline once [wgl] exists.  [entered] is instrumentation: it counts
    the calls of [processFrame]. *)
Record State := mkState {
  video : Video;
  canvas : Canvas;
  wgl : WGL;
  glCalls : list glCall;
  console : list string;
  tasks : list task;
  refsAttached : bool;          (* canvasRef.current && videoRef.current *)
  entered : nat
}.

Definition set_canvas (c : Canvas) (s : State) : State :=
  mkState (video s) c (wgl s) (glCalls s) (console s) (tasks s)
          (refsAttached s) (entered s).

Definition set_video (v : Video) (s : State) : State :=
  mkState v (canvas s) (wgl s) (glCalls s) (console s) (tasks s)
          (refsAttached s) (entered s).

Definition set_stopped (b : bool) (s : State) : State :=
  mkState (video s) (canvas s)
          (mkWGL b (useRequestVideoFrameCallback (wgl s))
                 (requestVideoFrameCallbackIsAvailable (wgl s)))
          (glCalls s) (console s) (tasks s) (refsAttached s) (entered s).

Definition gl (c : glCall) (s : State) : State :=
  mkState (video s) (canvas s) (wgl s) (glCalls s ++ [c]) (console s)
          (tasks s) (refsAttached s) (entered s).

Definition set_tasks (ts : list task) (s : State) : State :=
  mkState (video s) (canvas s) (wgl s) (glCalls s) (console s) ts
          (refsAttached s) (entered s).

Definition arm (t : task) (s : State) : State :=
  set_tasks (tasks s ++ [t]) s.

Definition enter (s : State) : State :=
  mkState (video s) (canvas s) (wgl s) (glCalls s) (console s) (tasks s)
          (refsAttached s) (S (entered s)).

Definition ofN (n : N) : number := Num (inject_Z (Z.of_N n)).

(** Lines 139-143. *)
Definition syncViewport (s : State) : State :=
  if negb (videoWidth (video s) =? width (canvas s))%N then
    let s := set_canvas (mkCanvas (videoWidth (video s))
                                  (videoHeight (video s))) s in
    gl (viewport 0 0 (videoWidth (video s)) (videoHeight (video s))) s
  else s.

(** Lines 145-167. *)
Definition draw (getConfig : unit -> LiveTweakableParams) (s : State)
  : State :=
  let s := gl (texImage2D (videoWidth (video s)) (videoHeight (video s))) s in
  let s := gl (uniform1i tex 0) s in
  let s := gl (uniform1f texWidth (ofN (videoWidth (video s)))) s in
  let s := gl (uniform1f texHeight (ofN (videoHeight (video s)))) s in
  let config := getConfig tt in
  let s := gl (uniform3f keyColor (fst (fst (keycolor config)))
                         (snd (fst (keycolor config)))
                         (snd (keycolor config))) s in
  let s := gl (uniform1f WebGL.similarity (similarity config)) s in
  let s := gl (uniform1f WebGL.smoothness (smoothness config)) s in
  let s := gl (uniform1f WebGL.spill (spill config)) s in
  gl (drawArrays TRIANGLE_FAN 0 4) s.

(** Lines 169-179. *)
Definition schedule (s : State) : State :=
  if stopped (wgl s) then s
  else if useRequestVideoFrameCallback (wgl s)
          && requestVideoFrameCallbackIsAvailable (wgl s)
       then arm VideoFrameCallback s
       else arm Timeout s.

Definition processFrame (getConfig : unit -> LiveTweakableParams)
  (s : State) : State :=
  let s := enter s in
  if stopped (wgl s) then s
  else schedule (draw getConfig (syncViewport s)).

Definition startProcessing (getConfig : unit -> LiveTweakableParams)
  (s : State) : State :=
  processFrame getConfig s.

(** The [getConfig] of [start]. *)
Definition getConfig (_ : unit) : LiveTweakableParams :=
  mkParams (hexColorToRGBPct "#11ff05") (Num 0.4) (Num 0.08) (Num 0.1).

Definition start (s : State) : State :=
  if negb (refsAttached s) then s
  else startProcessing getConfig (set_stopped false s).

Definition stop (s : State) : State := set_stopped true s.

(** The clean-up function of the effect. *)
Definition cleanup (s : State) : State := gl deleteProgram (stop s).

(** What the page hands to the effect. *)
Record Host := mkHost {
  refs : bool;                   (* canvasRef.current && videoRef.current *)
  webgl : bool;                  (* [false]: getContext returns null *)
  driver : Driver;
  hostVideo : Video;
  hostCanvas : Canvas
}.

(** The object literal of lines 201-232, before [start] is called. *)
Definition newWGL (h : Host) (l : Eff.log) : State :=
  mkState (hostVideo h) (hostCanvas h)
          (mkWGL true true (hasRequestVideoFrameCallback (hostVideo h)))
          (Eff.calls l) (Eff.errors l) [] (refs h) 0.

(** The outcome of the effect of [ProdReadyChromaDemo]. *)
Inductive outcome :=
  | Skipped                               (* a ref is missing *)
  | Threw (msg : string) (l : Eff.log)
  | Mounted (s : State).

Definition effect (h : Host) : outcome :=
  if negb (refs h) then Skipped
  else if negb (webgl h)
       then Threw "Could not initialize webgl" (Eff.mkLog [] [])
       else match Eff.run (init (driver h)) with
            | (l, inl msg) => Threw msg l
            | (l, inr _) => Mounted (start (newWGL h l))
            end.

(** What the browser and the page can do to a mounted pipeline. *)
Inductive event :=
  | Start                        (* wgl.start() *)
  | Stop                         (* wgl.stop() *)
  | Fire (t : task)              (* a waiting callback is called *)
  | SourceResize (w h : N).      (* the video's native size changes *)

Definition task_eqb (t u : task) : bool :=
  match t, u with
  | VideoFrameCallback, VideoFrameCallback => true
  | Timeout, Timeout => true
  | AnimationFrame, AnimationFrame => true
  | _, _ => false
  end.

Fixpoint remove1 (t : task) (ts : list task) : option (list task) :=
  match ts with
  | [] => None
  | u :: ts' =>
      if task_eqb t u then Some ts'
      else match remove1 t ts' with
           | Some r => Some (u :: r)
           | None => None
           end
  end.

(** The callback behind each task: [processFrame] for the two frame
    callbacks, [requestAnimationFrame(processFrame)] for the timer. *)
Definition callback (t : task) (s : State) : State :=
  match t with
  | VideoFrameCallback => processFrame getConfig s
  | AnimationFrame => processFrame getConfig s
  | Timeout => arm AnimationFrame s
  end.

(** A task fires only if it is waiting; it is then removed and called. *)
Definition step (e : event) (s : State) : State :=
  match e with
  | Start => start s
  | Stop => stop s
  | Fire t =>
      match remove1 t (tasks s) with
      | Some ts => callback t (set_tasks ts s)
      | None => s
      end
  | SourceResize w h =>
      set_video (mkVideo w h (hasRequestVideoFrameCallback (video s))) s
  end.

Fixpoint run (es : list event) (s : State) : State :=
  match es with
  | [] => s
  | e :: es' => run es' (step e s)
  end.

Definition draws (s : State) : nat := List.length (filter isDraw (glCalls s)).

Definition viewports (s : State) : list glCall :=
  filter isViewport (glCalls s).

Definition isStart (e : event) : bool :=
  match e with Start => true | _ => false end.

Definition isStartStop (e : event) : bool :=
  match e with Start | Stop => true | _ => false end.

Definition isSourceResize (e : event) : bool :=
  match e with SourceResize _ _ => true | _ => false end.

Definition noStart (es : list event) : bool :=
  forallb (fun e => negb (isStart e)) es.

(** The calls of lines 139-143, as a list. *)
Definition resizeCalls (s : State) : list glCall :=
  if (videoWidth (video s) =? width (canvas s))%N then []
  else [viewport 0 0 (videoWidth (video s)) (videoHeight (video s))].

(** The calls of lines 145-167, as a list. *)
Definition drawCalls (config : LiveTweakableParams) (v : Video)
  : list glCall :=
  [texImage2D (videoWidth v) (videoHeight v);
   uniform1i tex 0;
   uniform1f texWidth (ofN (videoWidth v));
   uniform1f texHeight (ofN (videoHeight v));
   uniform3f keyColor (fst (fst (keycolor config)))
             (snd (fst (keycolor config))) (snd (keycolor config));
   uniform1f WebGL.similarity (similarity config);
   uniform1f WebGL.smoothness (smoothness config);
   uniform1f WebGL.spill (spill config);
   drawArrays TRIANGLE_FAN 0 4].

(** The task a running cycle arms at its end. *)
Definition nextTask (w : WGL) : task :=
  if useRequestVideoFrameCallback w
     && requestVideoFrameCallbackIsAvailable w
  then VideoFrameCallback else Timeout.

(** The events that call [processFrame]. *)
Definition runsCycle (e : event) : bool :=
  match e with
  | Start | Fire VideoFrameCallback | Fire AnimationFrame => true
  | _ => false
  end.

(** Every object [init] asks the driver for is created. *)
Definition creationOk (d : Driver) : bool :=
  createShader d VERTEX_SHADER && createShader d FRAGMENT_SHADER
  && createProgram d.

(** The calls of an [init] that returns. *)
Definition initCalls : list glCall :=
  [shaderSource VERTEX_SHADER; compileShader VERTEX_SHADER;
   shaderSource FRAGMENT_SHADER; compileShader FRAGMENT_SHADER;
   attachShader VERTEX_SHADER; attachShader FRAGMENT_SHADER;
   linkProgram; useProgram; bindBuffer;
   bufferData [-1; 1; -1; -1; 1; -1; 1; 1]%Z;
   vertexAttribPointer 2; enableVertexAttribArray;
   activeTexture 0; bindTexture;
   texParameteri TEXTURE_WRAP_S CLAMP_TO_EDGE;
   texParameteri TEXTURE_WRAP_T CLAMP_TO_EDGE;
   texParameteri TEXTURE_MIN_FILTER LINEAR].

(** Sample data: a driver on which everything succeeds, one whose fragment
    shader does not compile and whose program does not link, and the hosts
    built on them. *)
Definition goodDriver : Driver :=
  mkDriver (fun _ => true) (fun _ => true) (fun _ => "") true true.

Definition badDriver : Driver :=
  mkDriver (fun _ => true) (fun _ => false)
           (fun _ => "ERROR: 0:1: syntax error") true false.

Definition sampleHost (d : Driver) (v : Video) : Host :=
  mkHost true true d v (mkCanvas 300 150).

(** A running pipeline whose canvas already has the size of its video. *)
Definition running640 : State :=
  mkState (mkVideo 640 480 true) (mkCanvas 640 480) (mkWGL false true true)
          [] [] [VideoFrameCallback] true 1.

(** A driver that cannot create the program object. *)
Definition noProgramDriver : Driver :=
  mkDriver (fun _ => true) (fun _ => true) (fun _ => "") false true.

(** A running pipeline whose video has not decoded a frame yet; the canvas
    has the default size of a canvas element. *)
Definition notDecoded : State :=
  mkState (mkVideo 0 0 true) (mkCanvas 300 150) (mkWGL false true true)
          [] [] [] true 0.

(** Reading a field through the setters. *)
Ltac fields :=
  cbn [video canvas wgl glCalls console tasks refsAttached entered
       set_canvas set_video set_stopped gl set_tasks arm enter stopped negb
       useRequestVideoFrameCallback requestVideoFrameCallbackIsAvailable].

(** A configuration whose thresholds are not positive. *)
Definition badConfig (_ : unit) : LiveTweakableParams :=
  mkParams (hexColorToRGBPct "green") (Num 0.4) (Num 0) (Num (-1)).

End Pipeline.

(* ================================================================= *)
(** ** Further notions used to state properties *)

Module ShaderDefs.
Import GLSL Shader.
Local Open Scope R_scope.

(** The colour [c] with [t] added to each channel. *)
Definition brighten (c : vec3) (t : R) : vec3 :=
  mkVec3 (r c + t) (g c + t) (b c + t).

(** The achromatic colour of level [v]. *)
Definition gray (v : R) : vec3 := mkVec3 v v v.

(** Every channel within [[0, 1]]. *)
Definition inGamut (c : vec3) : Prop :=
  0 <= r c <= 1 /\ 0 <= g c <= 1 /\ 0 <= b c <= 1.

(** A texture showing the key colour [#11ff05] in a slight shadow. *)
Definition shadedKey : uniforms :=
  mkUniforms
    (fun _ => mkVec4 (brighten (mkVec3 (17 / 255) 1 (5 / 255)) (-0.05)) 1)
    640 480 (mkVec3 (17 / 255) 1 (5 / 255)) 0.4 0.08 0.1.

(** A mid-gray texture under the same configuration. *)
Definition grayCard : uniforms :=
  mkUniforms (fun _ => mkVec4 (gray 0.5) 1) 640 480
             (mkVec3 (17 / 255) 1 (5 / 255)) 0.4 0.08 0.1.

End ShaderDefs.

Module ColorDefs.
Import JS.

(** ASCII lower case. *)
Definition toLower (c : ascii) : ascii :=
  if inRange "A" "Z" c then ascii_of_nat (code c + 32) else c.

Fixpoint lowercase (s : string) : string :=
  match s with
  | EmptyString => EmptyString
  | String c s' => String (toLower c) (lowercase s')
  end.

End ColorDefs.

Module PipelineDefs.
Import WebGL Pipeline.
Local Open Scope string_scope.

Definition noStartStop (es : list event) : bool :=
  forallb (fun e => negb (isStartStop e)) es.

Definition noSourceResize (es : list event) : bool :=
  forallb (fun e => negb (isSourceResize e)) es.

(** Two drivers that give [init] the same answers to the questions it
    asks: the three creations, the fragment shader's compile status and its
    info log. *)
Definition sameAnswers (d d' : Driver) : Prop :=
  createShader d VERTEX_SHADER = createShader d' VERTEX_SHADER
  /\ createShader d FRAGMENT_SHADER = createShader d' FRAGMENT_SHADER
  /\ createProgram d = createProgram d'
  /\ COMPILE_STATUS d FRAGMENT_SHADER = COMPILE_STATUS d' FRAGMENT_SHADER
  /\ shaderInfoLog d FRAGMENT_SHADER = shaderInfoLog d' FRAGMENT_SHADER.

(** The canvas has the native size of the video. *)
Definition synced (s : State) : Prop :=
  canvas s = mkCanvas (videoWidth (video s)) (videoHeight (video s)).

(** A driver whose vertex shader does not compile and whose program does
    not link, everything else succeeding. *)
Definition brokenVertexDriver : Driver :=
  mkDriver (fun _ => true)
           (fun t => match t with VERTEX_SHADER => false | _ => true end)
           (fun _ => "") true false.

(** A driver that cannot create the program and whose fragment shader does
    not compile. *)
Definition noProgramBadFragment : Driver :=
  mkDriver (fun _ => true) (fun _ => false) (fun _ => "bad fragment")
           false true.

(** A running pipeline on the timer strategy, its timer waiting. *)
Definition timerPipeline : State :=
  mkState (mkVideo 640 480 false) (mkCanvas 640 480) (mkWGL false true false)
          [] [] [Timeout] true 1.

End PipelineDefs.

(* ================================================================= *)
(** ** Properties of the shader *)

Module ShaderProps.
Import GLSL Shader.
Local Open Scope R_scope.

Lemma clamp_range (v : R) : 0 <= clamp v 0 1 <= 1.
Proof.
  unfold clamp, Rmin, Rmax.
  destruct (Rle_dec v 0); destruct (Rle_dec _ 1); lra.
Qed.

Lemma clamp_spec (v : R) : clamp v 0 1 = Spec.clamp01 v.
Proof.
  unfold clamp, Spec.clamp01, Rmin, Rmax.
  destruct (Rle_dec v 0); destruct (Rle_dec _ 1); destruct (Rle_dec 1 v);
    lra.
Qed.

Lemma clamp_mono (u v : R) : u <= v -> clamp u 0 1 <= clamp v 0 1.
Proof.
  intros Huv. unfold clamp.
  apply Rle_min_compat_r. apply Rle_max_compat_r. exact Huv.
Qed.

Lemma Rpower_three_halves (v : R) : 0 < v -> Rpower v 1.5 = v * sqrt v.
Proof.
  intros Hv.
  replace 1.5 with (1 + / 2) by lra.
  rewrite Rpower_plus, Rpower_1, Rpower_sqrt by assumption.
  reflexivity.
Qed.

Lemma pow_three_halves (v : R) : 0 <= v -> pow v 1.5 = Spec.pow15 v.
Proof.
  intros Hv. unfold pow, Spec.pow15.
  destruct (Rlt_dec 0 v) as [Hpos | Hnpos].
  - apply Rpower_three_halves; assumption.
  - assert (v = 0) as -> by lra. rewrite sqrt_0. ring.
Qed.

Lemma pow_0 (e : R) : pow 0 e = 0.
Proof.
  unfold pow. destruct (Rlt_dec 0 0); [lra | reflexivity].
Qed.

Lemma pow_1 (e : R) : pow 1 e = 1.
Proof.
  unfold pow. destruct (Rlt_dec 0 1); [| lra].
  unfold Rpower. rewrite ln_1, Rmult_0_r. apply exp_0.
Qed.

Lemma pow_mono (u v e : R) : 0 <= e -> 0 <= u <= v -> pow u e <= pow v e.
Proof.
  intros He [Hu Huv]. unfold pow.
  destruct (Rlt_dec 0 u) as [Hpu | Hnu]; destruct (Rlt_dec 0 v) as [Hpv | Hnv].
  - apply Rle_Rpower_l; [exact He | split; assumption].
  - lra.
  - left. unfold Rpower. apply exp_pos.
  - lra.
Qed.

Lemma toChromaPlane_spec (c : vec3) :
  Spec.toChromaPlane c = (x (RGBtoUV c), y (RGBtoUV c)).
Proof.
  unfold Spec.toChromaPlane, RGBtoUV; cbn [x y].
  f_equal; lra.
Qed.

Lemma chromaDist_spec (u : uniforms) (texCoord : vec2) :
  chromaDist u texCoord =
  Spec.euclideanDistance (Spec.toChromaPlane (rgb (tex u texCoord)))
                         (Spec.toChromaPlane (keyColor u)).
Proof.
  rewrite !toChromaPlane_spec.
  unfold chromaDist, distance, length, Spec.euclideanDistance.
  cbn [x y fst snd].
  apply (f_equal sqrt). ring.
Qed.

Lemma fullMask_spec (d sim sm : R) :
  fullMask d sim sm = Spec.alphaMask d sim sm.
Proof.
  unfold fullMask, Spec.alphaMask, Spec.base.
  rewrite pow_three_halves by apply clamp_range.
  now rewrite clamp_spec.
Qed.

Lemma spillVal_spec (d sim sp : R) :
  spillVal d sim sp = Spec.spillMask d sim sp.
Proof.
  unfold spillVal, Spec.spillMask, Spec.base.
  rewrite pow_three_halves by apply clamp_range.
  now rewrite clamp_spec.
Qed.

Lemma mix_lerp (u v : vec3) (t : R) : mix u v t = Spec.lerp u v t.
Proof.
  unfold mix, Spec.lerp, mix1, Spec.lerp1. f_equal; ring.
Qed.

Lemma fullMask_below (d sim sm : R) :
  0 < sm -> d <= sim -> fullMask d sim sm = 0.
Proof.
  intros Hsm Hd. unfold fullMask.
  assert ((d - sim) / sm <= 0) as Hq.
  { pose proof (Rinv_0_lt_compat sm Hsm) as Hinv. unfold Rdiv. nra. }
  replace (clamp ((d - sim) / sm) 0 1) with 0; [apply pow_0 |].
  unfold clamp, Rmin, Rmax.
  destruct (Rle_dec ((d - sim) / sm) 0); destruct (Rle_dec _ 1); lra.
Qed.

Lemma fullMask_above (d sim sm : R) :
  0 < sm -> sim + sm <= d -> fullMask d sim sm = 1.
Proof.
  intros Hsm Hd. unfold fullMask.
  assert (1 <= (d - sim) / sm) as Hq.
  { apply Rmult_le_reg_r with sm; [exact Hsm |].
    unfold Rdiv. rewrite Rmult_assoc, Rinv_l by lra. lra. }
  replace (clamp ((d - sim) / sm) 0 1) with 1; [apply pow_1 |].
  unfold clamp, Rmin, Rmax.
  destruct (Rle_dec ((d - sim) / sm) 0); destruct (Rle_dec _ 1); lra.
Qed.

Lemma distance_self (p : vec2) : distance p p = 0.
Proof.
  unfold distance, length; cbn [x y].
  replace ((x p - x p) * (x p - x p) + (y p - y p) * (y p - y p)) with 0
    by ring.
  apply sqrt_0.
Qed.

(** C1.  For every texture, key colour and thresholds, the colour the
    fragment shader computes at a texture coordinate is the output of the
    specification's algorithm on the pixel sampled there: alpha is
    [clamp(base/smoothness, 0, 1)^1.5] and RGB is the interpolation from the
    clamped luma to the sampled colour by [clamp(base/spill, 0, 1)^1.5],
    where [base] is the chroma-plane distance to the key colour minus
    [similarity]. *)
Theorem ProcessChromaKey_refines_spec (u : uniforms) (texCoord : vec2) :
  ProcessChromaKey u texCoord =
  Spec.output (rgb (tex u texCoord)) (keyColor u)
              (similarity u) (smoothness u) (spill u).
Proof.
  unfold ProcessChromaKey, Spec.output; cbn [rgb a].
  rewrite chromaDist_spec, fullMask_spec, spillVal_spec, mix_lerp, clamp_spec.
  unfold Spec.luma.
  replace (r (rgb (tex u texCoord)) * 0.2126
           + g (rgb (tex u texCoord)) * 0.7152
           + b (rgb (tex u texCoord)) * 0.0722)
    with (0.2126 * r (rgb (tex u texCoord))
          + 0.7152 * g (rgb (tex u texCoord))
          + 0.0722 * b (rgb (tex u texCoord))) by lra.
  reflexivity.
Qed.

(** C7.  With [similarity >= 0] and [smoothness > 0]: a chroma distance of at
    most [similarity] gives alpha 0, a chroma distance of at least
    [similarity + smoothness] gives alpha 1, and a sampled pixel equal to the
    key colour gets alpha 0 from the shader. *)
Theorem fullMask_thresholds (sim sm : R) :
  0 <= sim -> 0 < sm ->
  (forall d, d <= sim -> fullMask d sim sm = 0) /\
  (forall d, sim + sm <= d -> fullMask d sim sm = 1) /\
  (forall u texCoord,
     similarity u = sim -> smoothness u = sm ->
     rgb (tex u texCoord) = keyColor u ->
     chromaDist u texCoord = 0 /\ a (ProcessChromaKey u texCoord) = 0).
Proof.
  intros Hsim Hsm. split; [| split].
  - intros d Hd. now apply fullMask_below.
  - intros d Hd. now apply fullMask_above.
  - intros u texCoord Hs Hm Hkey.
    assert (chromaDist u texCoord = 0) as Hd.
    { unfold chromaDist. rewrite Hkey. apply distance_self. }
    split; [exact Hd |].
    unfold ProcessChromaKey; cbn [a]. rewrite Hd, Hs, Hm.
    now apply fullMask_below.
Qed.

Lemma fullMask_thresholds_witness :
  fullMask 0.4 0.4 0.08 = 0 /\ fullMask 1 0.4 0.08 = 1.
Proof.
  destruct (fullMask_thresholds 0.4 0.08) as (Hlo & Hhi & _); [lra | lra |].
  split; [apply Hlo | apply Hhi]; lra.
Defined.

(** C8.  For fixed [similarity >= 0] and [smoothness > 0] the alpha mask is
    monotonic non-decreasing in the chroma distance. *)
Theorem fullMask_monotone (sim sm d1 d2 : R) :
  0 <= sim -> 0 < sm -> d1 <= d2 ->
  fullMask d1 sim sm <= fullMask d2 sim sm.
Proof.
  intros _ Hsm Hd. unfold fullMask.
  apply pow_mono; [lra |].
  split; [apply clamp_range |].
  apply clamp_mono. unfold Rdiv.
  apply Rmult_le_compat_r; [| lra].
  left. now apply Rinv_0_lt_compat.
Qed.

Lemma fullMask_monotone_witness :
  fullMask 0.42 0.4 0.08 <= fullMask 0.45 0.4 0.08.
Proof.
  apply fullMask_monotone; lra.
Defined.

(** C9.  The spill weight and the alpha mask are the same function of the
    chroma distance, [similarity] and their denominator; so when
    [spill = smoothness] the spill weight the shader uses at a pixel equals
    the alpha it writes there. *)
Theorem spillVal_eq_fullMask (u : uniforms) (texCoord : vec2) :
  spill u = smoothness u ->
  (forall d sim den, spillVal d sim den = fullMask d sim den) /\
  spillVal (chromaDist u texCoord) (similarity u) (spill u)
  = a (ProcessChromaKey u texCoord).
Proof.
  intros Heq. split; [reflexivity |].
  unfold ProcessChromaKey; cbn [a]. rewrite Heq. reflexivity.
Qed.

Lemma spillVal_eq_fullMask_witness :
  spillVal (chromaDist sampleUniforms (mkVec2 0 0)) 0.4 0.1
  = a (ProcessChromaKey sampleUniforms (mkVec2 0 0)).
Proof.
  apply (spillVal_eq_fullMask sampleUniforms (mkVec2 0 0)). reflexivity.
Defined.

End ShaderProps.

(* ================================================================= *)
(** ** Properties of [hexColorToRGBPct] *)

Module ColorProps.
Import JS Color.
Local Open Scope string_scope.

Lemma isHexDigitb_iff (c : ascii) : isHexDigitb c = true <-> isHexDigit c.
Proof.
  unfold isHexDigitb, isHexDigit. rewrite existsb_exists. split.
  - intros (d & Hin & Heq). apply Ascii.eqb_eq in Heq. now subst.
  - intros Hin. exists c. split; [exact Hin | apply Ascii.eqb_refl].
Qed.

Lemma classHex_isHexDigitb (c : ascii) : classHex c = isHexDigitb c.
Proof.
  destruct c as [[] [] [] [] [] [] [] []]; vm_compute; reflexivity.
Qed.

Lemma classHex_iff (c : ascii) : classHex c = true <-> isHexDigit c.
Proof. rewrite classHex_isHexDigitb. apply isHexDigitb_iff. Qed.

Lemma isHexDigit_cases (c : ascii) :
  isHexDigit c -> In c (list_ascii_of_string "0123456789abcdefABCDEF").
Proof. exact (fun H => H). Qed.

Lemma parse_byte (c1 c2 : ascii) :
  isHexDigit c1 -> isHexDigit c2 ->
  parseInt16 (String c1 (String c2 EmptyString))
  = Num (inject_Z (byteValue c1 c2)).
Proof.
  intros H1 H2. apply isHexDigit_cases in H1, H2. cbn [list_ascii_of_string In] in H1, H2.
  repeat (destruct H1 as [<- | H1]; [
    repeat (destruct H2 as [<- | H2]; [vm_compute; reflexivity |]);
    contradiction |]).
  contradiction.
Qed.

Lemma byteValue_range (c1 c2 : ascii) :
  isHexDigit c1 -> isHexDigit c2 -> (0 <= byteValue c1 c2 <= 255)%Z.
Proof.
  intros H1 H2. apply isHexDigit_cases in H1, H2. cbn [list_ascii_of_string In] in H1, H2.
  repeat (destruct H1 as [<- | H1]; [
    repeat (destruct H2 as [<- | H2]; [vm_compute; split; discriminate |]);
    contradiction |]).
  contradiction.
Qed.

Lemma byteOf_inUnit (c1 c2 : ascii) :
  isHexDigit c1 -> isHexDigit c2 -> inUnit (byteOf c1 c2).
Proof.
  intros H1 H2. pose proof (byteValue_range c1 c2 H1 H2) as [Hlo Hhi].
  unfold byteOf, inUnit, Qdiv, Qle; cbn. lia.
Qed.

Lemma div_byte (c1 c2 : ascii) :
  isHexDigit c1 -> isHexDigit c2 ->
  div (parseInt16 (String c1 (String c2 EmptyString))) (Num 255)
  = byteOf c1 c2.
Proof.
  intros H1 H2. rewrite parse_byte by assumption. reflexivity.
Qed.

Lemma repeatClass_sound (cls : ascii -> bool) (n : nat) :
  forall s m rest,
    repeatClass cls n s = Some (m, rest) ->
    s = m ++ rest /\ String.length m = n
    /\ Forall (fun c => cls c = true) (list_ascii_of_string m).
Proof.
  induction n as [| n IH]; intros s m rest H; cbn in H.
  - injection H as <- <-. repeat split. constructor.
  - destruct s as [| c s']; [discriminate |].
    destruct (cls c) eqn:Hc; [| discriminate].
    destruct (repeatClass cls n s') as [[m' rest'] |] eqn:Hr; [| discriminate].
    injection H as <- <-.
    destruct (IH _ _ _ Hr) as (-> & Hlen & Hall).
    repeat split; cbn; [now rewrite Hlen | now constructor].
Qed.

Lemma repeatClass_complete (cls : ascii -> bool) :
  forall m rest,
    Forall (fun c => cls c = true) (list_ascii_of_string m) ->
    repeatClass cls (String.length m) (m ++ rest) = Some (m, rest).
Proof.
  induction m as [| c m IH]; intros rest Hall; cbn.
  - reflexivity.
  - cbn in Hall. inversion Hall as [| ? ? Hc Hm]; subst.
    now rewrite Hc, IH.
Qed.

Lemma append_empty (s : string) : s ++ "" = s.
Proof. induction s as [| c s IH]; cbn; [reflexivity | now rewrite IH]. Qed.

(** The regular expression accepts exactly the well-formed strings. *)
Lemma matchHexColor_Some (s h : string) :
  matchHexColor s = Some h ->
  s = String "#" h /\ String.length h = 6%nat
  /\ Forall isHexDigit (list_ascii_of_string h).
Proof.
  unfold matchHexColor. intros H.
  destruct s as [| c hex]; [discriminate |].
  destruct (Ascii.eqb_spec c "#") as [-> | Hne].
  - destruct (repeatClass classHex 6 hex) as [[g1 rest] |] eqn:Hr;
      [| discriminate].
    destruct rest; [| discriminate]. injection H as <-.
    destruct (repeatClass_sound _ _ _ _ _ Hr) as (-> & Hlen & Hall).
    rewrite append_empty. repeat split; [exact Hlen |].
    eapply Forall_impl; [| exact Hall]. intros a Ha. now apply classHex_iff.
  - exfalso.
    destruct c as [[] [] [] [] [] [] [] []]; try discriminate.
    now apply Hne.
Qed.

Lemma matchHexColor_wellFormed (s : string) :
  wellFormed s ->
  exists h, s = String "#" h /\ matchHexColor s = Some h.
Proof.
  intros (h & -> & Hlen & Hall). exists h. split; [reflexivity |].
  assert (repeatClass classHex 6 h = Some (h, "")) as Hr.
  { pose proof (repeatClass_complete classHex h "") as Hc.
    rewrite append_empty, Hlen in Hc. apply Hc.
    eapply Forall_impl; [| exact Hall]. intros a Ha. now apply classHex_iff. }
  unfold matchHexColor. now rewrite Hr.
Qed.

Lemma matchHexColor_None (s : string) :
  ~ wellFormed s -> matchHexColor s = None.
Proof.
  intros Hn. destruct (matchHexColor s) as [h |] eqn:Hm; [| reflexivity].
  exfalso. apply Hn. exists h. now apply matchHexColor_Some.
Qed.

Lemma wellFormed_sharp6 (s : string) :
  wellFormed s ->
  exists c1 c2 c3 c4 c5 c6,
    s = sharp6 c1 c2 c3 c4 c5 c6
    /\ Forall isHexDigit [c1; c2; c3; c4; c5; c6].
Proof.
  intros (h & -> & Hlen & Hall).
  destruct h as [| c1 [| c2 [| c3 [| c4 [| c5 [| c6 [| c7 h]]]]]]];
    try discriminate.
  exists c1, c2, c3, c4, c5, c6. split; [reflexivity | exact Hall].
Qed.

Lemma sharp6_wellFormed (c1 c2 c3 c4 c5 c6 : ascii) :
  Forall isHexDigit [c1; c2; c3; c4; c5; c6] ->
  wellFormed (sharp6 c1 c2 c3 c4 c5 c6).
Proof.
  intros Hall. eexists. split; [reflexivity |]. split; [reflexivity |].
  exact Hall.
Qed.

Lemma hexColorToRGBPct_sharp6 (c1 c2 c3 c4 c5 c6 : ascii) :
  Forall isHexDigit [c1; c2; c3; c4; c5; c6] ->
  hexColorToRGBPct (sharp6 c1 c2 c3 c4 c5 c6)
  = (byteOf c1 c2, byteOf c3 c4, byteOf c5 c6).
Proof.
  intros Hall.
  destruct (matchHexColor_wellFormed _ (sharp6_wellFormed _ _ _ _ _ _ Hall))
    as (h & Hh & Hm).
  injection Hh as <-.
  unfold hexColorToRGBPct. rewrite Hm.
  cbn [truthy substring Nat.min Nat.max Nat.sub String.substring].
  inversion Hall as [| ? ? H1 Hall1]; subst.
  inversion Hall1 as [| ? ? H2 Hall2]; subst.
  inversion Hall2 as [| ? ? H3 Hall3]; subst.
  inversion Hall3 as [| ? ? H4 Hall4]; subst.
  inversion Hall4 as [| ? ? H5 Hall5]; subst.
  inversion Hall5 as [| ? ? H6 Hall6]; subst.
  now rewrite !div_byte by assumption.
Qed.

Lemma hexColorToRGBPct_None (s : string) :
  matchHexColor s = None ->
  hexColorToRGBPct s = (Num (0 # 255), Num (0 # 255), Num (0 # 255)).
Proof.
  intros Hm. unfold hexColorToRGBPct. rewrite Hm. reflexivity.
Qed.

Lemma wellFormed_dec (s : string) : wellFormed s \/ ~ wellFormed s.
Proof.
  destruct (matchHexColor s) as [h |] eqn:Hm.
  - left. exists h. now apply matchHexColor_Some.
  - right. intros Hw. destruct (matchHexColor_wellFormed s Hw) as (h & _ & Hh).
    congruence.
Qed.

(** C10.  For every input string the three components returned by
    [hexColorToRGBPct] are numbers within [0, 1]; an input that is not a
    sharp sign followed by exactly six hexadecimal digits (of either case)
    gives black, and [#c1c2c3c4c5c6] gives the three two-digit bytes, each
    divided by 255. *)
Theorem hexColorToRGBPct_correct (s : string) :
  (inUnit (fst (fst (hexColorToRGBPct s)))
   /\ inUnit (snd (fst (hexColorToRGBPct s)))
   /\ inUnit (snd (hexColorToRGBPct s)))
  /\ (~ wellFormed s -> rgbEq (hexColorToRGBPct s) black)
  /\ (forall c1 c2 c3 c4 c5 c6,
        s = sharp6 c1 c2 c3 c4 c5 c6 ->
        Forall isHexDigit [c1; c2; c3; c4; c5; c6] ->
        hexColorToRGBPct s = (byteOf c1 c2, byteOf c3 c4, byteOf c5 c6)).
Proof.
  split; [| split].
  - destruct (wellFormed_dec s) as [Hw | Hn].
    + destruct (wellFormed_sharp6 s Hw)
        as (c1 & c2 & c3 & c4 & c5 & c6 & -> & Hall).
      rewrite hexColorToRGBPct_sharp6 by exact Hall. cbn [fst snd].
      inversion Hall as [| ? ? H1 Hall1]; subst.
      inversion Hall1 as [| ? ? H2 Hall2]; subst.
      inversion Hall2 as [| ? ? H3 Hall3]; subst.
      inversion Hall3 as [| ? ? H4 Hall4]; subst.
      inversion Hall4 as [| ? ? H5 Hall5]; subst.
      inversion Hall5 as [| ? ? H6 Hall6]; subst.
      repeat split; apply byteOf_inUnit; assumption.
    + rewrite hexColorToRGBPct_None by now apply matchHexColor_None.
      cbn. repeat split; discriminate.
  - intros Hn.
    rewrite hexColorToRGBPct_None by now apply matchHexColor_None.
    repeat split.
  - intros c1 c2 c3 c4 c5 c6 -> Hall. now apply hexColorToRGBPct_sharp6.
Qed.

Lemma hexColorToRGBPct_correct_witness :
  hexColorToRGBPct "#11fF05"
  = (Num (17 # 255), Num (255 # 255), Num (5 # 255))
  /\ rgbEq (hexColorToRGBPct "11ff05") black.
Proof.
  destruct (hexColorToRGBPct_correct "#11fF05") as (_ & _ & Hhex).
  destruct (hexColorToRGBPct_correct "11ff05") as (_ & Hblack & _).
  split.
  - rewrite (Hhex "1" "1" "f" "F" "0" "5")%char.
    + vm_compute. reflexivity.
    + reflexivity.
    + repeat (apply Forall_cons; [apply isHexDigitb_iff; reflexivity |]).
      apply Forall_nil.
  - apply Hblack. intros (h & Heq & _). discriminate Heq.
Defined.

End ColorProps.

(* ================================================================= *)
(** ** Properties of the frame loop *)

Module PipelineProps.
Import JS WebGL Color Pipeline.
Local Open Scope list_scope.

Lemma syncViewport_glCalls (s : State) :
  glCalls (syncViewport s) = glCalls s ++ resizeCalls s.
Proof.
  unfold syncViewport, resizeCalls.
  destruct (videoWidth (video s) =? width (canvas s))%N; fields.
  - now rewrite app_nil_r.
  - reflexivity.
Qed.

Lemma syncViewport_canvas (s : State) :
  canvas (syncViewport s)
  = if (videoWidth (video s) =? width (canvas s))%N then canvas s
    else mkCanvas (videoWidth (video s)) (videoHeight (video s)).
Proof.
  unfold syncViewport.
  destruct (videoWidth (video s) =? width (canvas s))%N; reflexivity.
Qed.

Lemma syncViewport_rest (s : State) :
  video (syncViewport s) = video s /\ wgl (syncViewport s) = wgl s
  /\ tasks (syncViewport s) = tasks s
  /\ entered (syncViewport s) = entered s.
Proof.
  unfold syncViewport.
  destruct (videoWidth (video s) =? width (canvas s))%N; now fields.
Qed.

Lemma draw_glCalls (g : unit -> LiveTweakableParams) (s : State) :
  glCalls (draw g s) = glCalls s ++ drawCalls (g tt) (video s).
Proof.
  unfold draw, drawCalls; fields. now rewrite <- !app_assoc.
Qed.

Lemma draw_rest (g : unit -> LiveTweakableParams) (s : State) :
  video (draw g s) = video s /\ canvas (draw g s) = canvas s
  /\ wgl (draw g s) = wgl s /\ tasks (draw g s) = tasks s
  /\ entered (draw g s) = entered s.
Proof. now unfold draw; fields. Qed.

Lemma schedule_rest (s : State) :
  video (schedule s) = video s /\ canvas (schedule s) = canvas s
  /\ wgl (schedule s) = wgl s /\ glCalls (schedule s) = glCalls s
  /\ entered (schedule s) = entered s.
Proof.
  unfold schedule. destruct (stopped (wgl s)); [easy |].
  destruct (useRequestVideoFrameCallback (wgl s)
            && requestVideoFrameCallbackIsAvailable (wgl s)); now fields.
Qed.

Lemma schedule_tasks (s : State) :
  tasks (schedule s)
  = tasks s ++ (if stopped (wgl s) then [] else [nextTask (wgl s)]).
Proof.
  unfold schedule, nextTask. destruct (stopped (wgl s)).
  - now rewrite app_nil_r.
  - destruct (useRequestVideoFrameCallback (wgl s)
              && requestVideoFrameCallbackIsAvailable (wgl s)); now fields.
Qed.

(** A cycle that finds the pipeline stopped does nothing. *)
Lemma processFrame_stopped (g : unit -> LiveTweakableParams) (s : State) :
  stopped (wgl s) = true -> processFrame g s = enter s.
Proof.
  intros Hs. unfold processFrame. fields. now rewrite Hs.
Qed.

Lemma processFrame_running (g : unit -> LiveTweakableParams) (s : State) :
  stopped (wgl s) = false ->
  processFrame g s = schedule (draw g (syncViewport (enter s))).
Proof.
  intros Hs. unfold processFrame. fields. now rewrite Hs.
Qed.

(** What a running cycle does to each field. *)
Lemma processFrame_effect (g : unit -> LiveTweakableParams) (s : State) :
  stopped (wgl s) = false ->
  glCalls (processFrame g s)
  = glCalls s ++ resizeCalls s ++ drawCalls (g tt) (video s)
  /\ canvas (processFrame g s)
     = (if (videoWidth (video s) =? width (canvas s))%N then canvas s
        else mkCanvas (videoWidth (video s)) (videoHeight (video s)))
  /\ tasks (processFrame g s) = tasks s ++ [nextTask (wgl s)]
  /\ video (processFrame g s) = video s
  /\ wgl (processFrame g s) = wgl s
  /\ entered (processFrame g s) = S (entered s).
Proof.
  intros Hs.
  unfold processFrame, schedule, draw, syncViewport, resizeCalls, nextTask,
    drawCalls; fields. rewrite Hs.
  destruct (videoWidth (video s) =? width (canvas s))%N; fields;
    rewrite ?Hs;
    destruct (useRequestVideoFrameCallback (wgl s)
              && requestVideoFrameCallbackIsAvailable (wgl s)); fields;
    rewrite <- ?app_assoc; repeat split.
Qed.

Lemma processFrame_wgl (g : unit -> LiveTweakableParams) (s : State) :
  wgl (processFrame g s) = wgl s /\ video (processFrame g s) = video s.
Proof.
  destruct (stopped (wgl s)) eqn:Hs.
  - now rewrite processFrame_stopped.
  - now destruct (processFrame_effect g s Hs) as (_ & _ & _ & -> & -> & _).
Qed.

Lemma processFrame_console (g : unit -> LiveTweakableParams) (s : State) :
  console (processFrame g s) = console s.
Proof.
  unfold processFrame, schedule, draw, syncViewport; fields.
  destruct (stopped (wgl s)) eqn:Hs; [reflexivity |].
  destruct (videoWidth (video s) =? width (canvas s))%N; fields;
    rewrite ?Hs;
    destruct (useRequestVideoFrameCallback (wgl s)
              && requestVideoFrameCallbackIsAvailable (wgl s)); reflexivity.
Qed.

Lemma filter_drawCalls_viewport (c : LiveTweakableParams) (v : Video) :
  filter isViewport (drawCalls c v) = [].
Proof. reflexivity. Qed.

Lemma filter_drawCalls_draw (c : LiveTweakableParams) (v : Video) :
  List.length (filter isDraw (drawCalls c v)) = 1%nat.
Proof. reflexivity. Qed.

Lemma filter_resizeCalls (s : State) :
  filter isViewport (resizeCalls s) = resizeCalls s
  /\ filter isDraw (resizeCalls s) = [].
Proof.
  unfold resizeCalls.
  destruct (videoWidth (video s) =? width (canvas s))%N; now cbn.
Qed.

Lemma processFrame_viewports (g : unit -> LiveTweakableParams) (s : State) :
  stopped (wgl s) = false ->
  viewports (processFrame g s) = viewports s ++ resizeCalls s.
Proof.
  intros Hs. destruct (processFrame_effect g s Hs) as (Hg & _).
  unfold viewports. rewrite Hg, !filter_app, filter_drawCalls_viewport.
  destruct (filter_resizeCalls s) as [-> _]. now rewrite app_nil_r.
Qed.

Lemma processFrame_draws (g : unit -> LiveTweakableParams) (s : State) :
  stopped (wgl s) = false -> draws (processFrame g s) = (draws s + 1)%nat.
Proof.
  intros Hs. destruct (processFrame_effect g s Hs) as (Hg & _).
  unfold draws. rewrite Hg, !filter_app, !length_app.
  destruct (filter_resizeCalls s) as [_ ->]. cbn. lia.
Qed.

Lemma processFrame_same_width (g : unit -> LiveTweakableParams) (s : State) :
  (videoWidth (video s) =? width (canvas s))%N = true ->
  canvas (processFrame g s) = canvas s
  /\ viewports (processFrame g s) = viewports s.
Proof.
  intros Hw. destruct (stopped (wgl s)) eqn:Hs.
  - now rewrite processFrame_stopped.
  - destruct (processFrame_effect g s Hs) as (_ & Hc & _).
    rewrite Hc, processFrame_viewports by exact Hs.
    unfold resizeCalls. rewrite Hw. now rewrite app_nil_r.
Qed.

Lemma remove1_length (t : task) :
  forall ts r, remove1 t ts = Some r -> List.length ts = S (List.length r).
Proof.
  induction ts as [| u ts IH]; intros r H; cbn in H; [discriminate |].
  destruct (task_eqb t u).
  - now injection H as <-.
  - destruct (remove1 t ts) as [r' |]; [| discriminate].
    injection H as <-. cbn. now rewrite (IH r').
Qed.

Lemma run_app (es1 es2 : list event) :
  forall s, run (es1 ++ es2) s = run es2 (run es1 s).
Proof.
  induction es1 as [| e es1 IH]; intros s; cbn; [reflexivity | apply IH].
Qed.

(** Once stopped, and until [start] is called again, an event issues no
    WebGL call, leaves the canvas alone, and uses up a waiting callback for
    each cycle it runs. *)
Lemma step_stopped (e : event) (s : State) :
  stopped (wgl s) = true -> isStart e = false ->
  stopped (wgl (step e s)) = true
  /\ glCalls (step e s) = glCalls s
  /\ canvas (step e s) = canvas s
  /\ (entered (step e s) + List.length (tasks (step e s))
      <= entered s + List.length (tasks s))%nat.
Proof.
  intros Hs He. destruct e as [| | t | w h]; try discriminate; cbn [step].
  - unfold stop; fields. repeat split; lia.
  - destruct (remove1 t (tasks s)) as [ts |] eqn:Hr.
    + apply remove1_length in Hr.
      destruct t; cbn [callback];
        rewrite ?processFrame_stopped by exact Hs; fields;
        rewrite ?length_app; cbn [List.length]; repeat split;
        try assumption; lia.
    + repeat split; try assumption; lia.
  - fields. repeat split; try assumption; lia.
Qed.

Lemma run_stopped (es : list event) :
  forall s,
    stopped (wgl s) = true -> noStart es = true ->
    stopped (wgl (run es s)) = true
    /\ glCalls (run es s) = glCalls s
    /\ canvas (run es s) = canvas s
    /\ (entered (run es s) + List.length (tasks (run es s))
        <= entered s + List.length (tasks s))%nat.
Proof.
  induction es as [| e es IH]; intros s Hs Hes.
  - cbn. repeat split; try assumption; lia.
  - cbn in Hes. apply andb_true_iff in Hes as [He Hes].
    apply negb_true_iff in He.
    destruct (step_stopped e s Hs He) as (Hs' & Hg & Hc & Hn).
    destruct (IH (step e s) Hs' Hes) as (Hs'' & Hg' & Hc' & Hn').
    cbn [run]. rewrite Hg', Hc', Hg, Hc. repeat split; try assumption; lia.
Qed.

Lemma processFrame_tasks (g : unit -> LiveTweakableParams) (s : State) :
  (List.length (tasks (processFrame g s)) <= S (List.length (tasks s)))%nat.
Proof.
  destruct (stopped (wgl s)) eqn:Hs.
  - rewrite processFrame_stopped by exact Hs. fields. lia.
  - destruct (processFrame_effect g s Hs) as (_ & _ & -> & _).
    rewrite length_app. cbn. lia.
Qed.

(** A pipeline started once has at most one callback waiting. *)
Lemma step_one_task (e : event) (s : State) :
  (List.length (tasks s) <= 1)%nat -> isStart e = false ->
  (List.length (tasks (step e s)) <= 1)%nat.
Proof.
  intros Hn He. destruct e as [| | t | w h]; try discriminate; cbn [step].
  - exact Hn.
  - destruct (remove1 t (tasks s)) as [ts |] eqn:Hr; [| exact Hn].
    apply remove1_length in Hr.
    destruct t; cbn [callback].
    + pose proof (processFrame_tasks getConfig (set_tasks ts s)) as Hp.
      revert Hp. fields. lia.
    + fields. rewrite length_app. cbn. lia.
    + pose proof (processFrame_tasks getConfig (set_tasks ts s)) as Hp.
      revert Hp. fields. lia.
  - exact Hn.
Qed.

Lemma run_one_task (es : list event) :
  forall s,
    (List.length (tasks s) <= 1)%nat -> noStart es = true ->
    (List.length (tasks (run es s)) <= 1)%nat.
Proof.
  induction es as [| e es IH]; intros s Hn Hes; [exact Hn |].
  cbn in Hes. apply andb_true_iff in Hes as [He Hes].
  apply negb_true_iff in He. cbn [run].
  apply IH; [now apply step_one_task | exact Hes].
Qed.

Lemma start_one_task (s : State) :
  tasks s = [] -> (List.length (tasks (start s)) <= 1)%nat.
Proof.
  intros Ht. unfold start, startProcessing.
  destruct (refsAttached s); cbn [negb].
  - pose proof (processFrame_tasks getConfig (set_stopped false s)) as Hp.
    revert Hp. fields. rewrite Ht. cbn. lia.
  - rewrite Ht. cbn. lia.
Qed.

(** C2, as the code has it.  Once [stop] has set the pipeline to stopped,
    and for as long as [start] is not called again, the cycles that run
    issue no WebGL call (so no draw call) and leave the canvas alone, and
    there are at most as many of them as callbacks were waiting; in a
    pipeline that was started once, from a state with no callback waiting,
    and then stopped, at most one cycle still runs after [stop] has
    returned, without drawing. *)
Theorem stop_blocks_draws :
  (forall s es,
     stopped (wgl s) = true -> noStart es = true ->
     glCalls (run es s) = glCalls s /\ draws (run es s) = draws s
     /\ canvas (run es s) = canvas s
     /\ (entered (run es s) <= entered s + List.length (tasks s))%nat)
  /\ (forall s es1 es2,
        tasks s = [] -> noStart es1 = true -> noStart es2 = true ->
        let s1 := run (Start :: es1 ++ [Stop]) s in
        let s2 := run es2 s1 in
        stopped (wgl s1) = true /\ draws s2 = draws s1
        /\ (entered s2 <= entered s1 + 1)%nat).
Proof.
  split.
  - intros s es Hs Hes.
    destruct (run_stopped es s Hs Hes) as (_ & Hg & Hc & Hn).
    unfold draws. rewrite Hg. repeat split; [exact Hc | lia].
  - intros s es1 es2 Ht H1 H2 s1 s2.
    assert (s1 = stop (run es1 (start s))) as Hs1.
    { unfold s1. cbn [run step]. now rewrite run_app. }
    assert (stopped (wgl s1) = true) as Hstop by now rewrite Hs1.
    assert (List.length (tasks s1) <= 1)%nat as Hone.
    { rewrite Hs1. unfold stop; fields.
      apply run_one_task; [now apply start_one_task | exact H1]. }
    destruct (run_stopped es2 s1 Hstop H2) as (_ & Hg & _ & Hn).
    fold s2 in Hg, Hn.
    split; [exact Hstop |]. split; [unfold draws; now rewrite Hg | lia].
Qed.

Lemma stop_blocks_draws_witness :
  let s := newWGL (sampleHost goodDriver (mkVideo 640 480 true))
                  (Eff.mkLog initCalls []) in
  let s1 := run [Start; Fire VideoFrameCallback; Stop] s in
  let s2 := run [Fire VideoFrameCallback; Fire VideoFrameCallback] s1 in
  draws s1 = 2%nat /\ draws s2 = draws s1
  /\ (entered s2 <= entered s1 + 1)%nat.
Proof.
  intros s s1 s2. split; [reflexivity |].
  destruct stop_blocks_draws as [_ H].
  apply (H s [Fire VideoFrameCallback]
           [Fire VideoFrameCallback; Fire VideoFrameCallback]);
    reflexivity.
Defined.

(** C2 as stated fails: [stop] retracts nothing and each [start] arms a
    cycle, so after start, stop, start, stop two callbacks are waiting and two
    cycles (both blocked by the guard) run after the last [stop] has
    returned. *)
Lemma two_cycles_run_after_stop :
  let s := newWGL (sampleHost goodDriver (mkVideo 640 480 true))
                  (Eff.mkLog initCalls []) in
  let s1 := run [Start; Stop; Start; Stop] s in
  let s2 := run [Fire VideoFrameCallback; Fire VideoFrameCallback] s1 in
  stopped (wgl s1) = true
  /\ tasks s1 = [VideoFrameCallback; VideoFrameCallback]
  /\ entered s2 = (entered s1 + 2)%nat
  /\ draws s2 = draws s1.
Proof.
  cbv zeta.
  split; [vm_compute; reflexivity |].
  split; [vm_compute; reflexivity |].
  split; vm_compute; reflexivity.
Qed.

(** Consecutive cycles of a running pipeline over an unchanged source. *)
Lemma iter_cycles (g : unit -> LiveTweakableParams) (s : State) :
  stopped (wgl s) = false ->
  forall n,
    let s' := Nat.iter (S n) (processFrame g) s in
    wgl s' = wgl s /\ video s' = video s
    /\ width (canvas s') = videoWidth (video s)
    /\ canvas s'
       = (if (videoWidth (video s) =? width (canvas s))%N then canvas s
          else mkCanvas (videoWidth (video s)) (videoHeight (video s)))
    /\ viewports s' = viewports s ++ resizeCalls s
    /\ draws s' = (draws s + S n)%nat.
Proof.
  intros Hs. induction n as [| n IH]; cbn zeta.
  - cbn [Nat.iter nat_rect].
    destruct (processFrame_effect g s Hs) as (_ & Hc & _ & Hv & Hw & _).
    rewrite Hw, Hv, Hc, processFrame_viewports, processFrame_draws
      by exact Hs.
    repeat split.
    destruct (videoWidth (video s) =? width (canvas s))%N eqn:E;
      [symmetry; now apply N.eqb_eq | reflexivity].
  - cbn zeta in IH. destruct IH as (Hw & Hv & Hcw & Hc & Hvp & Hd).
    set (sn := Nat.iter (S n) (processFrame g) s) in *.
    change (Nat.iter (S (S n)) (processFrame g) s) with (processFrame g sn).
    assert (stopped (wgl sn) = false) as Hsn by now rewrite Hw.
    assert ((videoWidth (video sn) =? width (canvas sn))%N = true) as Heq.
    { rewrite Hv, Hcw. apply N.eqb_refl. }
    destruct (processFrame_wgl g sn) as [Hw' Hv'].
    destruct (processFrame_same_width g sn Heq) as [Hc' Hvp'].
    rewrite Hw', Hv', Hc', Hvp', processFrame_draws by exact Hsn.
    rewrite Hw, Hv, Hcw, Hc, Hvp, Hd. repeat split. lia.
Qed.

Lemma step_same_width (e : event) (s : State) :
  (videoWidth (video s) =? width (canvas s))%N = true
  \/ runsCycle e = false ->
  canvas (step e s) = canvas s /\ viewports (step e s) = viewports s.
Proof.
  intros H. destruct e as [| | t | w h]; cbn [step].
  - destruct H as [Hw | ?]; [| discriminate].
    unfold start, startProcessing. destruct (refsAttached s); cbn [negb];
      [| easy].
    now apply (processFrame_same_width getConfig (set_stopped false s)).
  - easy.
  - destruct (remove1 t (tasks s)) as [ts |]; [| easy].
    destruct t; cbn [callback]; try easy;
      (destruct H as [Hw | ?]; [| discriminate]);
      now apply (processFrame_same_width getConfig (set_tasks ts s)).
  - easy.
Qed.

(** C3, as the code has it.  The canvas size and the viewport change only in
    a cycle that finds the video's native width different from the canvas
    width: over any number of consecutive cycles of a running pipeline with
    an unchanged source there is exactly one resize, to the video's native
    size with viewport [(0, 0, width, height)], if the widths differed at the
    first of them, and none otherwise; an event that runs no cycle, or that
    finds the widths equal, changes neither the canvas size nor the
    viewport. *)
Theorem resize_only_on_width_change
  (g : unit -> LiveTweakableParams) (s : State) :
  stopped (wgl s) = false ->
  (forall n,
     let s' := Nat.iter (S n) (processFrame g) s in
     viewports s'
     = viewports s
       ++ (if (videoWidth (video s) =? width (canvas s))%N then []
           else [viewport 0 0 (videoWidth (video s))
                          (videoHeight (video s))])
     /\ canvas s'
        = (if (videoWidth (video s) =? width (canvas s))%N then canvas s
           else mkCanvas (videoWidth (video s)) (videoHeight (video s)))
     /\ draws s' = (draws s + S n)%nat)
  /\ (forall e s0,
        (videoWidth (video s0) =? width (canvas s0))%N = true
        \/ runsCycle e = false ->
        canvas (step e s0) = canvas s0
        /\ viewports (step e s0) = viewports s0)
  /\ (forall s0, canvas (cleanup s0) = canvas s0
                 /\ viewports (cleanup s0) = viewports s0).
Proof.
  intros Hs. split; [| split].
  - intros n. destruct (iter_cycles g s Hs n) as (_ & _ & _ & Hc & Hv & Hd).
    repeat split; assumption.
  - apply step_same_width.
  - intros s0. split; [reflexivity |].
    unfold viewports, cleanup, stop; fields.
    rewrite filter_app. cbn. now rewrite app_nil_r.
Qed.

Lemma resize_only_on_width_change_witness :
  let s := set_video (mkVideo 1280 720 true) running640 in
  let s' := Nat.iter 3 (processFrame getConfig) s in
  viewports s' = [viewport 0 0 1280 720]
  /\ canvas s' = mkCanvas 1280 720 /\ draws s' = 3%nat.
Proof.
  intros s s'.
  destruct (resize_only_on_width_change getConfig s) as (H & _);
    [reflexivity |].
  exact (H 2%nat).
Defined.

(** C3 as stated fails: after the source changes from 640x480 to 640x360 the
    following cycles draw without any resize, and the canvas keeps a size
    that is not the source's. *)
Lemma height_change_is_not_resized :
  let s' := run [SourceResize 640 360; Fire VideoFrameCallback;
                 Fire VideoFrameCallback] running640 in
  viewports s' = viewports running640
  /\ draws s' = (draws running640 + 2)%nat
  /\ canvas s' = mkCanvas 640 480
  /\ (videoWidth (video s'), videoHeight (video s')) = (640, 360)%N.
Proof. repeat split. Qed.

Lemma init_created (d : Driver) :
  creationOk d = true ->
  Eff.run (init d)
  = (Eff.mkLog initCalls
       (if COMPILE_STATUS d FRAGMENT_SHADER then []
        else [shaderInfoLog d FRAGMENT_SHADER]),
     inr tt).
Proof.
  unfold creationOk. intros H.
  apply andb_true_iff in H as [H Hp]. apply andb_true_iff in H as [Hv Hf].
  unfold Eff.run, init, Eff.bind, Eff.when, Eff.gl, Eff.ret.
  rewrite Hv, Hf, Hp. cbn [negb Eff.calls Eff.errors app].
  destruct (COMPILE_STATUS d FRAGMENT_SHADER); reflexivity.
Qed.

Lemma init_not_created (d : Driver) :
  creationOk d = false ->
  exists msg l,
    Eff.run (init d) = (l, inl msg) /\ filter isDraw (Eff.calls l) = [].
Proof.
  unfold creationOk. intros H.
  unfold Eff.run, init, Eff.bind, Eff.when, Eff.gl, Eff.ret, Eff.throw,
    Eff.console_error.
  destruct (createShader d VERTEX_SHADER); cbn [negb];
    [| eexists; eexists; split; reflexivity].
  destruct (createShader d FRAGMENT_SHADER); cbn [negb];
    [| eexists; eexists; split; reflexivity].
  destruct (createProgram d); [discriminate |].
  destruct (COMPILE_STATUS d FRAGMENT_SHADER); cbn [negb];
    eexists; eexists; split; reflexivity.
Qed.

(** C4, as the code has it.  When the WebGL context, a shader object or the
    program object cannot be created, the effect throws synchronously: no
    pipeline is built, nothing is started and no draw call is issued.  When
    they are created, [init] returns whatever the compile and link status:
    the pipeline is started, its first cycle draws and arms the next one; a
    fragment shader that does not compile only has its info log written to
    the console. *)
Theorem init_failure_handling (h : Host) :
  refs h = true ->
  (webgl h && creationOk (driver h) = false ->
   exists msg l,
     effect h = Threw msg l /\ filter isDraw (Eff.calls l) = [])
  /\ (webgl h && creationOk (driver h) = true ->
      exists s,
        effect h = Mounted s /\ stopped (wgl s) = false
        /\ draws s = 1%nat /\ tasks s = [nextTask (wgl s)]
        /\ console s
           = (if COMPILE_STATUS (driver h) FRAGMENT_SHADER then []
              else [shaderInfoLog (driver h) FRAGMENT_SHADER])).
Proof.
  intros Hr. unfold effect. rewrite Hr. cbn [negb]. split.
  - intros H. destruct (webgl h); cbn [negb andb] in *.
    + destruct (init_not_created _ H) as (msg & l & -> & Hl).
      now exists msg, l.
    + now exists "Could not initialize webgl"%string, (Eff.mkLog [] []).
  - intros H. apply andb_true_iff in H as [-> Hc]. cbn [negb].
    rewrite (init_created _ Hc).
    set (l := Eff.mkLog _ _).
    set (s0 := set_stopped false (newWGL h l)).
    assert (start (newWGL h l) = processFrame getConfig s0) as Hstart.
    { unfold start, startProcessing. cbn [refsAttached newWGL].
      now rewrite Hr. }
    assert (stopped (wgl s0) = false) as Hs by reflexivity.
    exists (processFrame getConfig s0). rewrite Hstart.
    destruct (processFrame_effect getConfig s0 Hs)
      as (_ & _ & Ht & _ & Hw & _).
    rewrite Hw, Ht, processFrame_console, processFrame_draws by exact Hs.
    repeat split.
Qed.

Lemma init_failure_handling_witness :
  exists msg l,
    effect (sampleHost noProgramDriver (mkVideo 640 480 true)) = Threw msg l
    /\ filter isDraw (Eff.calls l) = [].
Proof.
  destruct (init_failure_handling
              (sampleHost noProgramDriver (mkVideo 640 480 true)) eq_refl)
    as [H _].
  apply H. reflexivity.
Defined.

(** C4 as stated fails: with a fragment shader that does not compile and a
    program that does not link, the effect returns normally, the pipeline is
    running, a draw call has been issued and the next cycle is armed; the
    info log went to the console only. *)
Lemma compile_failure_still_runs :
  exists s,
    effect (sampleHost badDriver (mkVideo 640 480 true)) = Mounted s
    /\ stopped (wgl s) = false /\ draws s = 1%nat
    /\ tasks s = [VideoFrameCallback]
    /\ console s = ["ERROR: 0:1: syntax error"%string].
Proof.
  eexists. split; [vm_compute; reflexivity |].
  repeat split; vm_compute; reflexivity.
Qed.

(** C5, as the code has it.  A key colour string that does not parse gives
    black.  The thresholds of the configuration read in a cycle are handed
    to the shader as they are, whatever their values; the draw call is
    issued and the next cycle is armed. *)
Theorem config_passed_unchanged
  (g : unit -> LiveTweakableParams) (s : State) :
  stopped (wgl s) = false ->
  glCalls (processFrame g s)
  = glCalls s ++ resizeCalls s
    ++ [texImage2D (videoWidth (video s)) (videoHeight (video s));
        uniform1i tex 0;
        uniform1f texWidth (ofN (videoWidth (video s)));
        uniform1f texHeight (ofN (videoHeight (video s)));
        uniform3f keyColor (fst (fst (keycolor (g tt))))
                  (snd (fst (keycolor (g tt)))) (snd (keycolor (g tt)));
        uniform1f WebGL.similarity (similarity (g tt));
        uniform1f WebGL.smoothness (smoothness (g tt));
        uniform1f WebGL.spill (spill (g tt));
        drawArrays TRIANGLE_FAN 0 4]
  /\ tasks (processFrame g s) = tasks s ++ [nextTask (wgl s)]
  /\ (forall str, ~ wellFormed str -> rgbEq (hexColorToRGBPct str) black).
Proof.
  intros Hs. destruct (processFrame_effect g s Hs) as (Hg & _ & Ht & _).
  split; [exact Hg |]. split; [exact Ht |].
  intros str Hn.
  rewrite ColorProps.hexColorToRGBPct_None
    by now apply ColorProps.matchHexColor_None.
  repeat split.
Qed.

Lemma config_passed_unchanged_witness :
  In (uniform1f WebGL.smoothness (Num 0))
     (glCalls (processFrame badConfig running640))
  /\ tasks (processFrame badConfig running640)
     = [VideoFrameCallback; VideoFrameCallback].
Proof.
  destruct (config_passed_unchanged badConfig running640 eq_refl)
    as (Hg & Ht & _).
  split; [| exact Ht].
  rewrite Hg. cbn. tauto.
Defined.

(** C5 as stated fails: a configuration with [smoothness = 0] and
    [spill = -1] reaches the shader as it is; no positive threshold is put
    in its place. *)
Lemma nonpositive_thresholds_reach_shader :
  glCalls (processFrame badConfig running640)
  = [texImage2D 640 480; uniform1i tex 0;
     uniform1f texWidth (Num 640); uniform1f texHeight (Num 480);
     uniform3f keyColor (Num (0 # 255)) (Num (0 # 255)) (Num (0 # 255));
     uniform1f WebGL.similarity (Num 0.4);
     uniform1f WebGL.smoothness (Num 0);
     uniform1f WebGL.spill (Num (-1));
     drawArrays TRIANGLE_FAN 0 4].
Proof. reflexivity. Qed.

(** C6, as the code has it.  A cycle that finds a video of size 0x0 is not
    skipped: the canvas is resized to 0x0 with viewport [(0, 0, 0, 0)] unless
    its width is 0 already, the frame is uploaded, the uniforms are set, the
    draw call is issued and the next cycle is armed. *)
Theorem zero_size_source_is_drawn
  (g : unit -> LiveTweakableParams) (s : State) :
  stopped (wgl s) = false ->
  videoWidth (video s) = 0%N -> videoHeight (video s) = 0%N ->
  glCalls (processFrame g s)
  = glCalls s
    ++ (if (0 =? width (canvas s))%N then [] else [viewport 0 0 0 0])
    ++ drawCalls (g tt) (video s)
  /\ canvas (processFrame g s)
     = (if (0 =? width (canvas s))%N then canvas s else mkCanvas 0 0)
  /\ draws (processFrame g s) = (draws s + 1)%nat
  /\ tasks (processFrame g s) = tasks s ++ [nextTask (wgl s)].
Proof.
  intros Hs Hw Hh.
  destruct (processFrame_effect g s Hs) as (Hg & Hc & Ht & _).
  rewrite Hg, Hc, Ht, processFrame_draws by exact Hs.
  unfold resizeCalls. rewrite Hw, Hh. repeat split.
Qed.

Lemma zero_size_source_is_drawn_witness :
  canvas (processFrame getConfig notDecoded) = mkCanvas 0 0
  /\ draws (processFrame getConfig notDecoded) = 1%nat
  /\ tasks (processFrame getConfig notDecoded) = [VideoFrameCallback].
Proof.
  destruct (zero_size_source_is_drawn getConfig notDecoded
              eq_refl eq_refl eq_refl) as (_ & Hc & Hd & Ht).
  repeat split; assumption.
Defined.

(** C6 as stated fails: on a video that reports 0x0 the cycle resizes the
    canvas to 0x0, sets the viewport and issues the draw call. *)
Lemma zero_size_cycle_not_skipped :
  glCalls (processFrame getConfig notDecoded)
  = [viewport 0 0 0 0; texImage2D 0 0; uniform1i tex 0;
     uniform1f texWidth (Num 0); uniform1f texHeight (Num 0);
     uniform3f keyColor (Num (17 # 255)) (Num (255 # 255)) (Num (5 # 255));
     uniform1f WebGL.similarity (Num 0.4);
     uniform1f WebGL.smoothness (Num 0.08);
     uniform1f WebGL.spill (Num 0.1);
     drawArrays TRIANGLE_FAN 0 4]
  /\ canvas (processFrame getConfig notDecoded) = mkCanvas 0 0.
Proof. split; reflexivity. Qed.

End PipelineProps.

(* ================================================================= *)
(** ** Further properties of the shader *)

Module ShaderMore.
Import GLSL Shader ShaderDefs ShaderProps.
Local Open Scope R_scope.

Lemma pow_range (v e : R) : 0 <= v <= 1 -> 0 <= e -> 0 <= pow v e <= 1.
Proof.
  intros [Hv0 Hv1] He. split.
  - rewrite <- (pow_0 e). apply pow_mono; [exact He | lra].
  - rewrite <- (pow_1 e). apply pow_mono; [exact He | lra].
Qed.

Lemma fullMask_range (d sim sm : R) : 0 <= fullMask d sim sm <= 1.
Proof. unfold fullMask. apply pow_range; [apply clamp_range | lra]. Qed.

Lemma clamp_id (v : R) : 0 <= v <= 1 -> clamp v 0 1 = v.
Proof.
  intros H. unfold clamp, Rmin, Rmax.
  destruct (Rle_dec v 0); destruct (Rle_dec _ 1); lra.
Qed.

Lemma mix1_range (u v w : R) :
  0 <= u <= 1 -> 0 <= v <= 1 -> 0 <= w <= 1 -> 0 <= mix1 u v w <= 1.
Proof. intros Hu Hv Hw. unfold mix1. nra. Qed.

(** X1.  The chroma coordinates ignore brightness: adding the same amount to
    the three channels of a colour leaves [RGBtoUV] unchanged, and every
    achromatic colour sits at the centre [(0.5, 0.5)] of the plane. *)
Theorem RGBtoUV_brightness (c : vec3) (t v : R) :
  RGBtoUV (brighten c t) = RGBtoUV c /\ RGBtoUV (gray v) = mkVec2 0.5 0.5.
Proof.
  unfold RGBtoUV, brighten, gray; cbn [r g b]. split; f_equal; lra.
Qed.

(** X2.  The chroma distance of two colours is never negative, is the same
    in both directions, and is zero exactly when the two colours have the
    same chroma coordinates. *)
Theorem chroma_distance_metric (p q : vec3) :
  0 <= distance (RGBtoUV p) (RGBtoUV q)
  /\ distance (RGBtoUV p) (RGBtoUV q) = distance (RGBtoUV q) (RGBtoUV p)
  /\ (distance (RGBtoUV p) (RGBtoUV q) = 0 <-> RGBtoUV p = RGBtoUV q).
Proof.
  set (P := RGBtoUV p). set (Q := RGBtoUV q).
  unfold distance, length; cbn [x y]. split; [apply sqrt_pos |]. split.
  - apply (f_equal sqrt). ring.
  - split.
    + intros H.
      apply sqrt_eq_0 in H;
        [| apply Rplus_le_le_0_compat; apply Rle_0_sqr].
      destruct (Rplus_sqr_eq_0 (x P - x Q) (y P - y Q) H) as [Hx Hy].
      destruct P as [px py], Q as [qx qy]; cbn [x y] in *.
      f_equal; lra.
    + intros ->.
      replace ((x Q - x Q) * (x Q - x Q) + (y Q - y Q) * (y Q - y Q))
        with 0 by ring.
      apply sqrt_0.
Qed.

(** X4.  For a non-zero [smoothness], the alpha the shader writes lies in
    [[0, 1]], for every texture, key colour and [similarity]. *)
Theorem alpha_in_unit_interval (u : uniforms) (texCoord : vec2) :
  smoothness u <> 0 ->
  0 <= a (ProcessChromaKey u texCoord) <= 1.
Proof.
  intros _. unfold ProcessChromaKey; cbn [a]. apply fullMask_range.
Qed.

Lemma alpha_in_unit_interval_witness :
  0 <= a (ProcessChromaKey sampleUniforms (mkVec2 0 0)) <= 1.
Proof.
  apply alpha_in_unit_interval. cbn. lra.
Defined.

(** X5.  For a non-zero [spill], when the sampled colour has its three
    channels in [[0, 1]], so has the colour the shader writes. *)
Theorem output_in_gamut (u : uniforms) (texCoord : vec2) :
  spill u <> 0 ->
  inGamut (rgb (tex u texCoord)) ->
  inGamut (rgb (ProcessChromaKey u texCoord)).
Proof.
  intros _ (Hr & Hg & Hb).
  unfold ProcessChromaKey, inGamut, mix; cbn [rgb r g b a].
  set (w := spillVal _ _ _).
  assert (0 <= w <= 1) as Hw by apply (fullMask_range _ _ (spill u)).
  set (d := clamp _ 0 1).
  assert (0 <= d <= 1) as Hd by apply clamp_range.
  repeat split; apply mix1_range; assumption.
Qed.

Lemma output_in_gamut_witness :
  inGamut (rgb (ProcessChromaKey sampleUniforms (mkVec2 0 0))).
Proof.
  apply output_in_gamut; [cbn; lra |]. unfold inGamut; cbn. lra.
Defined.

(** X6.  Spill suppression at its two ends, for [spill > 0]: a pixel at
    chroma distance at least [similarity + spill] keeps its colour, and a
    pixel at chroma distance at most [similarity] is replaced by the gray of
    its clamped luma. *)
Theorem spill_extremes (u : uniforms) (texCoord : vec2) :
  0 < spill u ->
  (similarity u + spill u <= chromaDist u texCoord ->
   rgb (ProcessChromaKey u texCoord) = rgb (tex u texCoord))
  /\ (chromaDist u texCoord <= similarity u ->
      rgb (ProcessChromaKey u texCoord)
      = gray (clamp (r (rgb (tex u texCoord)) * 0.2126
                     + g (rgb (tex u texCoord)) * 0.7152
                     + b (rgb (tex u texCoord)) * 0.0722) 0 1)).
Proof.
  intros Hsp. split; intros Hd; unfold ProcessChromaKey; cbn [rgb a].
  - replace (spillVal (chromaDist u texCoord) (similarity u) (spill u))
      with 1 by (symmetry; now apply fullMask_above).
    destruct (rgb (tex u texCoord)) as [pr pg pb].
    unfold mix, mix1; cbn [r g b]. f_equal; ring.
  - replace (spillVal (chromaDist u texCoord) (similarity u) (spill u))
      with 0 by (symmetry; now apply fullMask_below).
    unfold mix, mix1, gray; cbn [r g b]. f_equal; ring.
Qed.

Lemma spill_extremes_witness :
  rgb (ProcessChromaKey shadedKey (mkVec2 0 0))
  = gray (clamp ((17 / 255 + -0.05) * 0.2126 + (1 + -0.05) * 0.7152
                 + (5 / 255 + -0.05) * 0.0722) 0 1).
Proof.
  destruct (spill_extremes shadedKey (mkVec2 0 0)) as [_ H]; [cbn; lra |].
  apply H.
  replace (chromaDist shadedKey (mkVec2 0 0)) with 0; [cbn; lra |].
  symmetry. unfold chromaDist, distance, length, RGBtoUV, shadedKey, brighten.
  cbn [tex keyColor rgb r g b x y].
  rewrite <- sqrt_0 at 1. apply (f_equal sqrt). lra.
Defined.

(** X7.  For a non-zero [spill], an achromatic pixel with level in [[0, 1]]
    keeps its colour, whatever the key colour and the thresholds: the luma
    weights sum to 1, so desaturating it changes nothing. *)
Theorem gray_pixel_unchanged (u : uniforms) (texCoord : vec2) (v : R) :
  spill u <> 0 ->
  rgb (tex u texCoord) = gray v -> 0 <= v <= 1 ->
  rgb (ProcessChromaKey u texCoord) = gray v.
Proof.
  intros _ Hpx Hv. unfold ProcessChromaKey; cbn [rgb a]. rewrite Hpx.
  unfold gray; cbn [r g b].
  replace (v * 0.2126 + v * 0.7152 + v * 0.0722) with v by lra.
  rewrite clamp_id by exact Hv.
  unfold mix, mix1; cbn [r g b]. f_equal; ring.
Qed.

Lemma gray_pixel_unchanged_witness :
  rgb (ProcessChromaKey grayCard (mkVec2 0 0)) = gray 0.5.
Proof.
  apply gray_pixel_unchanged; [cbn; lra | reflexivity | lra].
Defined.

(** X8.  [main] flips the image vertically: with a non-zero [texHeight], the
    fragment at height [texHeight - fy] gets the colour computed for the
    texture coordinate [(fx / texWidth, fy / texHeight)]. *)
Theorem main_flips_vertically (u : uniforms) (fx fy : R) :
  texHeight u <> 0 ->
  main u (mkVec2 fx (texHeight u - fy))
  = ProcessChromaKey u (mkVec2 (fx / texWidth u) (fy / texHeight u)).
Proof.
  intros Hh. unfold main; cbn [x y].
  replace (1.0 - (texHeight u - fy) / texHeight u) with (fy / texHeight u);
    [reflexivity |].
  replace 1.0 with 1 by lra. field. exact Hh.
Qed.

Lemma main_flips_vertically_witness :
  main sampleUniforms (mkVec2 10 (480 - 30))
  = ProcessChromaKey sampleUniforms (mkVec2 (10 / 640) (30 / 480)).
Proof.
  apply (main_flips_vertically sampleUniforms 10 30). cbn. lra.
Defined.

(** X9.  Strictly inside the transition band,
    [similarity < d < similarity + smoothness], the alpha mask is strictly
    between 0 and 1. *)
Theorem fullMask_inside_band (d sim sm : R) :
  sim < d -> d < sim + sm -> 0 < fullMask d sim sm < 1.
Proof.
  intros Hlo Hhi. assert (0 < sm) as Hsm by lra.
  pose proof (Rinv_0_lt_compat sm Hsm) as Hinv.
  assert (0 < (d - sim) / sm < 1) as [Hq0 Hq1].
  { split.
    - unfold Rdiv. apply Rmult_lt_0_compat; lra.
    - apply Rmult_lt_reg_r with sm; [exact Hsm |].
      unfold Rdiv. rewrite Rmult_assoc, Rinv_l by lra. lra. }
  unfold fullMask. rewrite clamp_id by lra.
  rewrite pow_three_halves by lra. unfold Spec.pow15.
  set (q := (d - sim) / sm) in *.
  pose proof (sqrt_lt_R0 q Hq0) as Hs0.
  assert (sqrt q < 1) as Hs1.
  { rewrite <- sqrt_1. apply sqrt_lt_1; lra. }
  split; nra.
Qed.

Lemma fullMask_inside_band_witness : 0 < fullMask 0.44 0.4 0.08 < 1.
Proof. apply fullMask_inside_band; lra. Defined.

Lemma quotient_antitone (n sm1 sm2 : R) :
  0 < sm1 -> sm1 <= sm2 -> 0 <= n -> n / sm2 <= n / sm1.
Proof.
  intros H1 H12 Hn. unfold Rdiv.
  apply Rmult_le_compat_l; [exact Hn |].
  apply Rinv_le_contravar; assumption.
Qed.

(** X10.  Tuning, for a positive [smoothness]: raising [similarity] never
    raises the alpha of a pixel, and raising [smoothness] never raises it
    either. *)
Theorem fullMask_antitone_in_thresholds (d sim1 sim2 sm1 sm2 : R) :
  0 < sm1 -> sim1 <= sim2 -> sm1 <= sm2 ->
  fullMask d sim2 sm1 <= fullMask d sim1 sm1
  /\ fullMask d sim1 sm2 <= fullMask d sim1 sm1.
Proof.
  intros Hsm Hsim Hsm12. split.
  - unfold fullMask. apply pow_mono; [lra |].
    split; [apply clamp_range |]. apply clamp_mono.
    pose proof (Rinv_0_lt_compat sm1 Hsm) as Hinv.
    unfold Rdiv. apply Rmult_le_compat_r; lra.
  - destruct (Rle_dec d sim1) as [Hle | Hgt].
    + rewrite !fullMask_below by lra. lra.
    + unfold fullMask. apply pow_mono; [lra |].
      split; [apply clamp_range |]. apply clamp_mono.
      apply quotient_antitone; lra.
Qed.

Lemma fullMask_antitone_in_thresholds_witness :
  fullMask 0.45 0.42 0.08 <= fullMask 0.45 0.4 0.08
  /\ fullMask 0.45 0.4 0.1 <= fullMask 0.45 0.4 0.08.
Proof. apply fullMask_antitone_in_thresholds; lra. Defined.

End ShaderMore.

(* ================================================================= *)
(** ** Further properties of [hexColorToRGBPct] *)

Module ColorMore.
Import JS Color ColorDefs ColorProps.
Local Open Scope string_scope.

Lemma toLower_isHexDigitb (c : ascii) :
  isHexDigitb (toLower c) = isHexDigitb c.
Proof.
  destruct c as [[] [] [] [] [] [] [] []]; vm_compute; reflexivity.
Qed.

Lemma toLower_isHexDigit (c : ascii) : isHexDigit (toLower c) <-> isHexDigit c.
Proof. now rewrite <- !isHexDigitb_iff, toLower_isHexDigitb. Qed.

Lemma toLower_digitValue (c : ascii) : digitValue (toLower c) = digitValue c.
Proof.
  destruct c as [[] [] [] [] [] [] [] []]; vm_compute; reflexivity.
Qed.

Lemma toLower_sharp (c : ascii) : toLower c = "#"%char -> c = "#"%char.
Proof.
  destruct c as [[] [] [] [] [] [] [] []]; vm_compute; intros H;
    first [reflexivity | discriminate H].
Qed.

Lemma lowercase_length (s : string) :
  String.length (lowercase s) = String.length s.
Proof. induction s as [| c s IH]; cbn; [reflexivity | now rewrite IH]. Qed.

Lemma lowercase_hex (s : string) :
  Forall isHexDigit (list_ascii_of_string (lowercase s))
  <-> Forall isHexDigit (list_ascii_of_string s).
Proof.
  induction s as [| c s IH]; cbn; [easy |].
  split; intros H; inversion H as [| ? ? Hc Hs]; subst; constructor.
  - now apply toLower_isHexDigit.
  - now apply IH.
  - now apply toLower_isHexDigit.
  - now apply IH.
Qed.

Lemma lowercase_wellFormed (s : string) :
  wellFormed (lowercase s) <-> wellFormed s.
Proof.
  split.
  - intros (h & Heq & Hlen & Hall).
    destruct s as [| c s']; [discriminate |]. cbn in Heq.
    injection Heq as Hc <-. apply toLower_sharp in Hc. subst c.
    exists s'. rewrite lowercase_length in Hlen.
    split; [reflexivity |]. split; [exact Hlen |].
    apply (proj1 (lowercase_hex s')). exact Hall.
  - intros (h & -> & Hlen & Hall). exists (lowercase h).
    rewrite lowercase_length.
    split; [reflexivity |]. split; [exact Hlen |].
    apply (proj2 (lowercase_hex h)). exact Hall.
Qed.

Lemma byteOf_toLower (c1 c2 : ascii) :
  byteOf (toLower c1) (toLower c2) = byteOf c1 c2.
Proof.
  unfold byteOf, byteValue. now rewrite !toLower_digitValue.
Qed.

Lemma hexColorToRGBPct_lowercase (s : string) :
  hexColorToRGBPct (lowercase s) = hexColorToRGBPct s.
Proof.
  destruct (wellFormed_dec s) as [Hw | Hn].
  - destruct (wellFormed_sharp6 s Hw)
      as (c1 & c2 & c3 & c4 & c5 & c6 & -> & Hall).
    change (lowercase (sharp6 c1 c2 c3 c4 c5 c6))
      with (sharp6 (toLower c1) (toLower c2) (toLower c3) (toLower c4)
                   (toLower c5) (toLower c6)).
    rewrite (hexColorToRGBPct_sharp6 c1 c2 c3 c4 c5 c6 Hall).
    rewrite hexColorToRGBPct_sharp6.
    + now rewrite !byteOf_toLower.
    + apply (lowercase_hex (String c1 (String c2 (String c3 (String c4
               (String c5 (String c6 EmptyString))))))). exact Hall.
  - rewrite !hexColorToRGBPct_None; [reflexivity | | ].
    + now apply matchHexColor_None.
    + apply matchHexColor_None. intros Hw. apply Hn.
      now apply lowercase_wellFormed.
Qed.

(** X11.  The colour does not depend on the case of the letters: two strings
    that are equal once put in lower case give the same triple (in
    particular the unparseable ones stay unparseable: both give black). *)
Theorem hexColorToRGBPct_case_insensitive (s1 s2 : string) :
  lowercase s1 = lowercase s2 ->
  hexColorToRGBPct s1 = hexColorToRGBPct s2.
Proof.
  intros H.
  rewrite <- (hexColorToRGBPct_lowercase s1),
          <- (hexColorToRGBPct_lowercase s2).
  now rewrite H.
Qed.

Lemma hexColorToRGBPct_case_insensitive_witness :
  hexColorToRGBPct "#11FF05" = hexColorToRGBPct "#11ff05".
Proof.
  apply hexColorToRGBPct_case_insensitive. reflexivity.
Defined.

Lemma digitValue_range (c : ascii) :
  isHexDigit c -> (0 <= digitValue c <= 15)%Z.
Proof.
  intros H. apply isHexDigit_cases in H. cbn [list_ascii_of_string In] in H.
  repeat (destruct H as [<- | H]; [vm_compute; split; discriminate |]).
  contradiction.
Qed.

Lemma digitValue_inj (c d : ascii) :
  isHexDigit c -> isHexDigit d -> digitValue c = digitValue d ->
  toLower c = toLower d.
Proof.
  intros Hc Hd. apply isHexDigit_cases in Hc, Hd.
  cbn [list_ascii_of_string In] in Hc, Hd.
  repeat (destruct Hc as [<- | Hc]; [
    repeat (destruct Hd as [<- | Hd]; [
      vm_compute; intros E; first [reflexivity | discriminate E] |]);
    contradiction |]).
  contradiction.
Qed.

Lemma byteOf_inj (c1 c2 d1 d2 : ascii) :
  isHexDigit c1 -> isHexDigit c2 -> isHexDigit d1 -> isHexDigit d2 ->
  byteOf c1 c2 = byteOf d1 d2 ->
  toLower c1 = toLower d1 /\ toLower c2 = toLower d2.
Proof.
  intros Hc1 Hc2 Hd1 Hd2 E.
  pose proof (digitValue_range c1 Hc1). pose proof (digitValue_range c2 Hc2).
  pose proof (digitValue_range d1 Hd1). pose proof (digitValue_range d2 Hd2).
  assert (byteValue c1 c2 = byteValue d1 d2) as Hv.
  { unfold byteOf in E.
    set (v := byteValue c1 c2) in *. set (w := byteValue d1 d2) in *.
    unfold Qdiv, Qmult, Qinv, inject_Z in E.
    cbn [Qnum Qden] in E. injection E as E. lia. }
  unfold byteValue in Hv.
  split; apply digitValue_inj; try assumption; lia.
Qed.

(** X12.  On well-formed strings the colour determines the string up to
    case: two strings of the form [#rrggbb] that give the same triple are
    equal once put in lower case. *)
Theorem hexColorToRGBPct_injective (s1 s2 : string) :
  wellFormed s1 -> wellFormed s2 ->
  hexColorToRGBPct s1 = hexColorToRGBPct s2 ->
  lowercase s1 = lowercase s2.
Proof.
  intros Hw1 Hw2 Heq.
  destruct (wellFormed_sharp6 s1 Hw1)
    as (c1 & c2 & c3 & c4 & c5 & c6 & -> & Hc).
  destruct (wellFormed_sharp6 s2 Hw2)
    as (d1 & d2 & d3 & d4 & d5 & d6 & -> & Hd).
  rewrite (hexColorToRGBPct_sharp6 _ _ _ _ _ _ Hc),
          (hexColorToRGBPct_sharp6 _ _ _ _ _ _ Hd) in Heq.
  pose proof (f_equal (fun p => fst (fst p)) Heq) as E12.
  pose proof (f_equal (fun p => snd (fst p)) Heq) as E34.
  pose proof (f_equal snd Heq) as E56.
  cbn [fst snd] in E12, E34, E56.
  inversion Hc as [| ? ? Hc1 Hc']; subst.
  inversion Hc' as [| ? ? Hc2 Hc'']; subst.
  inversion Hc'' as [| ? ? Hc3 Hc3']; subst.
  inversion Hc3' as [| ? ? Hc4 Hc4']; subst.
  inversion Hc4' as [| ? ? Hc5 Hc5']; subst.
  inversion Hc5' as [| ? ? Hc6 _]; subst.
  inversion Hd as [| ? ? Hd1 Hd']; subst.
  inversion Hd' as [| ? ? Hd2 Hd'']; subst.
  inversion Hd'' as [| ? ? Hd3 Hd3']; subst.
  inversion Hd3' as [| ? ? Hd4 Hd4']; subst.
  inversion Hd4' as [| ? ? Hd5 Hd5']; subst.
  inversion Hd5' as [| ? ? Hd6 _]; subst.
  destruct (byteOf_inj _ _ _ _ Hc1 Hc2 Hd1 Hd2 E12) as [L1 L2].
  destruct (byteOf_inj _ _ _ _ Hc3 Hc4 Hd3 Hd4 E34) as [L3 L4].
  destruct (byteOf_inj _ _ _ _ Hc5 Hc6 Hd5 Hd6 E56) as [L5 L6].
  cbn [lowercase sharp6]. now rewrite L1, L2, L3, L4, L5, L6.
Qed.

Lemma hexColorToRGBPct_injective_witness :
  lowercase "#AbCdEf" = lowercase "#abcdef".
Proof.
  apply hexColorToRGBPct_injective.
  - apply sharp6_wellFormed.
    repeat (apply Forall_cons; [apply isHexDigitb_iff; reflexivity |]).
    apply Forall_nil.
  - apply sharp6_wellFormed.
    repeat (apply Forall_cons; [apply isHexDigitb_iff; reflexivity |]).
    apply Forall_nil.
  - vm_compute. reflexivity.
Defined.

End ColorMore.

(* ================================================================= *)
(** ** Further properties of [init] and of the frame loop *)

Module PipelineMore.
Import JS WebGL Color Pipeline PipelineDefs PipelineProps.
Local Open Scope list_scope.

(** X13.  [init] never looks at the vertex shader's compile status nor at
    the link status: two drivers that agree on the three creations and on
    the fragment shader's compile status and info log give the same calls,
    the same console output and the same result. *)
Theorem init_ignores_vertex_and_link (d d' : Driver) :
  sameAnswers d d' -> Eff.run (init d) = Eff.run (init d').
Proof.
  intros (Hv & Hf & Hp & Hc & Hl).
  unfold Eff.run, init, Eff.bind, Eff.when, Eff.gl, Eff.ret, Eff.throw,
    Eff.console_error.
  now rewrite Hv, Hf, Hp, Hc, Hl.
Qed.

Lemma init_ignores_vertex_and_link_witness :
  Eff.run (init brokenVertexDriver) = Eff.run (init goodDriver).
Proof.
  apply init_ignores_vertex_and_link. repeat split.
Defined.

(** X14.  What [init] does on every driver: it throws the error of the first
    object that could not be created and returns otherwise; the calls it
    has issued by then are a prefix of the calls of a complete [init] (so it
    never draws, sets a viewport or a uniform); and the fragment shader's
    info log is written to the console exactly when both shaders were
    created and the fragment shader did not compile, even if [init] then
    throws for the program. *)
Theorem init_outcome (d : Driver) :
  snd (Eff.run (init d))
  = (if negb (createShader d VERTEX_SHADER)
     then inl "Could not create VERTEX_SHADER"%string
     else if negb (createShader d FRAGMENT_SHADER)
     then inl "Could not create FRAGMENT_SHADER"%string
     else if negb (createProgram d)
     then inl "Could not create WebGL Program"%string
     else inr tt)
  /\ (exists rest, initCalls = Eff.calls (fst (Eff.run (init d))) ++ rest)
  /\ Eff.errors (fst (Eff.run (init d)))
     = (if createShader d VERTEX_SHADER && createShader d FRAGMENT_SHADER
           && negb (COMPILE_STATUS d FRAGMENT_SHADER)
        then [shaderInfoLog d FRAGMENT_SHADER] else []).
Proof.
  unfold Eff.run, init, Eff.bind, Eff.when, Eff.gl, Eff.ret, Eff.throw,
    Eff.console_error.
  destruct (createShader d VERTEX_SHADER); cbn [negb andb];
    [| repeat split; now exists initCalls].
  destruct (createShader d FRAGMENT_SHADER); cbn [negb andb];
    [| repeat split; eexists; reflexivity].
  destruct (COMPILE_STATUS d FRAGMENT_SHADER); cbn [negb];
    destruct (createProgram d); cbn [negb fst snd Eff.calls Eff.errors app];
    repeat split; first [now exists [] | eexists; reflexivity].
Qed.

Lemma step_flags (e : event) (s : State) :
  useRequestVideoFrameCallback (wgl (step e s))
  = useRequestVideoFrameCallback (wgl s)
  /\ requestVideoFrameCallbackIsAvailable (wgl (step e s))
     = requestVideoFrameCallbackIsAvailable (wgl s).
Proof.
  destruct e as [| | t | w h]; cbn [step].
  - unfold start, startProcessing. destruct (refsAttached s); cbn [negb];
      [| easy].
    destruct (processFrame_wgl getConfig (set_stopped false s)) as [-> _].
    now fields.
  - now unfold stop; fields.
  - destruct (remove1 t (tasks s)) as [ts |]; [| easy].
    destruct t; cbn [callback]; try easy;
      now destruct (processFrame_wgl getConfig (set_tasks ts s)) as [-> _].
  - easy.
Qed.

Lemma run_flags (es : list event) :
  forall s, nextTask (wgl (run es s)) = nextTask (wgl s).
Proof.
  induction es as [| e es IH]; intros s; cbn [run]; [reflexivity |].
  rewrite IH. unfold nextTask.
  now destruct (step_flags e s) as [-> ->].
Qed.

Lemma draws_set_tasks (ts : list task) (s : State) :
  draws (set_tasks ts s) = draws s.
Proof. reflexivity. Qed.

(** One event on a running pipeline, [start] and [stop] apart. *)
Lemma step_running (e : event) (s : State) :
  stopped (wgl s) = false -> isStartStop e = false ->
  stopped (wgl (step e s)) = false
  /\ List.length (tasks (step e s)) = List.length (tasks s)
  /\ (draws (step e s) + entered s = draws s + entered (step e s))%nat.
Proof.
  intros Hs He. destruct e as [| | t | w h]; try discriminate; cbn [step].
  - destruct (remove1 t (tasks s)) as [ts |] eqn:Hr; [| now repeat split].
    apply remove1_length in Hr.
    assert (stopped (wgl (set_tasks ts s)) = false) as Hs' by exact Hs.
    destruct (processFrame_effect getConfig _ Hs')
      as (_ & _ & Ht & _ & Hw & Hen).
    pose proof (processFrame_draws getConfig _ Hs') as Hd.
    rewrite draws_set_tasks in Hd. revert Ht Hw Hen; fields; intros.
    destruct t; cbn [callback].
    + rewrite Hw, Ht, Hd, Hen, length_app. cbn [List.length].
      repeat split; [exact Hs | lia | lia].
    + fields. rewrite length_app. cbn [List.length].
      repeat split; [exact Hs | lia].
    + rewrite Hw, Ht, Hd, Hen, length_app. cbn [List.length].
      repeat split; [exact Hs | lia | lia].
  - now repeat split.
Qed.

(** X15.  While a pipeline is running, and until [start] or [stop] is
    called, it stays running, the number of waiting callbacks never changes
    (the loop neither dies nor multiplies), and every cycle issues exactly
    one draw call. *)
Theorem running_pipeline_invariants (es : list event) (s : State) :
  stopped (wgl s) = false -> noStartStop es = true ->
  stopped (wgl (run es s)) = false
  /\ List.length (tasks (run es s)) = List.length (tasks s)
  /\ (draws (run es s) + entered s = draws s + entered (run es s))%nat.
Proof.
  revert s. induction es as [| e es IH]; intros s Hs Hes.
  - now repeat split.
  - cbn in Hes. apply andb_true_iff in Hes as [He Hes].
    apply negb_true_iff in He.
    destruct (step_running e s Hs He) as (Hs' & Ht & Hd).
    destruct (IH (step e s) Hs' Hes) as (Hs'' & Ht' & Hd').
    cbn [run]. repeat split; [exact Hs'' | congruence | lia].
Qed.

Lemma running_pipeline_invariants_witness :
  let s := run [Fire VideoFrameCallback; SourceResize 1280 720;
                Fire VideoFrameCallback] running640 in
  stopped (wgl s) = false /\ List.length (tasks s) = 1%nat
  /\ (draws s + 1 = 0 + entered s)%nat.
Proof.
  apply (running_pipeline_invariants
           [Fire VideoFrameCallback; SourceResize 1280 720;
            Fire VideoFrameCallback] running640); reflexivity.
Defined.

Lemma effect_mounted (h : Host) (s : State) :
  effect h = Mounted s ->
  exists l,
    s = processFrame getConfig (set_stopped false (newWGL h l))
    /\ refs h = true.
Proof.
  unfold effect. destruct (refs h) eqn:Hr; cbn [negb]; [| discriminate].
  destruct (webgl h); cbn [negb]; [| discriminate].
  destruct (Eff.run (init (driver h))) as [l [msg | []]]; [discriminate |].
  intros H. injection H as <-. exists l. split; [| reflexivity].
  unfold start, startProcessing. cbn [refsAttached newWGL]. now rewrite Hr.
Qed.

Lemma mounted_state (h : Host) (s : State) :
  effect h = Mounted s ->
  stopped (wgl s) = false
  /\ tasks s = [if hasRequestVideoFrameCallback (hostVideo h)
                then VideoFrameCallback else Timeout]
  /\ nextTask (wgl s)
     = (if hasRequestVideoFrameCallback (hostVideo h)
        then VideoFrameCallback else Timeout).
Proof.
  intros H. destruct (effect_mounted h s H) as (l & -> & _).
  assert (stopped (wgl (set_stopped false (newWGL h l))) = false) as Hs
    by reflexivity.
  destruct (processFrame_effect getConfig _ Hs) as (_ & _ & Ht & _ & Hw & _).
  rewrite Hw, Ht. now repeat split.
Qed.

(** X16.  A pipeline mounted by the effect is running with exactly one
    callback waiting, and stays so through every frame, timer and source
    event until [start] or [stop] is called: at most one cycle is armed at
    any time. *)
Theorem mounted_has_one_callback (h : Host) (s : State) (es : list event) :
  effect h = Mounted s -> noStartStop es = true ->
  stopped (wgl (run es s)) = false
  /\ List.length (tasks (run es s)) = 1%nat.
Proof.
  intros Hm Hes. destruct (mounted_state h s Hm) as (Hs & Ht & _).
  destruct (running_pipeline_invariants es s Hs Hes) as (Hs' & Hl & _).
  split; [exact Hs' |]. now rewrite Hl, Ht.
Qed.

Lemma mounted_has_one_callback_witness :
  exists s,
    effect (sampleHost goodDriver (mkVideo 640 480 false)) = Mounted s
    /\ List.length (tasks (run [Fire Timeout; Fire AnimationFrame] s))
       = 1%nat.
Proof.
  eexists. split; [vm_compute; reflexivity |].
  apply (mounted_has_one_callback
           (sampleHost goodDriver (mkVideo 640 480 false)) _
           [Fire Timeout; Fire AnimationFrame]);
    vm_compute; reflexivity.
Defined.

(** X17.  [stop] retracts nothing and [start] always arms a cycle of its
    own: calling [stop] and then [start] on a pipeline whose refs are
    attached leaves one more callback waiting than before, and that number
    stays until the next [start] or [stop]. *)
Theorem restart_adds_a_callback (s : State) (es : list event) :
  refsAttached s = true -> noStartStop es = true ->
  stopped (wgl (run (Stop :: Start :: es) s)) = false
  /\ List.length (tasks (run (Stop :: Start :: es) s))
     = S (List.length (tasks s)).
Proof.
  intros Hr Hes. cbn [run step].
  assert (start (stop s)
          = processFrame getConfig (set_stopped false (stop s))) as Hst.
  { unfold start, startProcessing. unfold stop at 1; fields.
    now rewrite Hr. }
  assert (stopped (wgl (set_stopped false (stop s))) = false) as Hs
    by reflexivity.
  destruct (processFrame_effect getConfig _ Hs) as (_ & _ & Ht & _ & Hw & _).
  assert (stopped (wgl (start (stop s))) = false) as Hs'
    by now rewrite Hst, Hw.
  destruct (running_pipeline_invariants es _ Hs' Hes) as (Hs'' & Hl & _).
  split; [exact Hs'' |].
  rewrite Hl, Hst, Ht, length_app. unfold stop; fields. cbn. lia.
Qed.

Lemma restart_adds_a_callback_witness :
  List.length (tasks (run [Stop; Start; Fire VideoFrameCallback] running640))
  = 2%nat.
Proof.
  apply (restart_adds_a_callback running640 [Fire VideoFrameCallback]);
    reflexivity.
Defined.

(** X18.  After the clean-up of the effect, [deleteProgram] is the last
    WebGL call: whatever callbacks fire afterwards, no call is issued on the
    deleted program, unless [start] is called again. *)
Theorem cleanup_is_final (s : State) (es : list event) :
  noStart es = true ->
  glCalls (run es (cleanup s)) = glCalls s ++ [deleteProgram]
  /\ canvas (run es (cleanup s)) = canvas s.
Proof.
  intros Hes.
  assert (stopped (wgl (cleanup s)) = true) as Hs by reflexivity.
  destruct (run_stopped es (cleanup s) Hs Hes) as (_ & Hg & Hc & _).
  now rewrite Hg, Hc.
Qed.

Lemma cleanup_is_final_witness :
  glCalls (run [Fire VideoFrameCallback; Fire VideoFrameCallback]
              (cleanup running640))
  = [deleteProgram].
Proof.
  apply (cleanup_is_final running640
           [Fire VideoFrameCallback; Fire VideoFrameCallback]).
  reflexivity.
Defined.

(** X19.  The wait strategy is fixed when the pipeline is built: whatever
    happens afterwards, a cycle of a mounted pipeline arms a video-frame
    callback if the video element had [requestVideoFrameCallback] at mount
    time, and the timer otherwise. *)
Theorem strategy_is_fixed (h : Host) (s : State) (es : list event) :
  effect h = Mounted s ->
  nextTask (wgl (run es s))
  = (if hasRequestVideoFrameCallback (hostVideo h)
     then VideoFrameCallback else Timeout).
Proof.
  intros Hm. rewrite run_flags.
  now destruct (mounted_state h s Hm) as (_ & _ & ->).
Qed.

Lemma strategy_is_fixed_witness :
  exists s,
    effect (sampleHost goodDriver (mkVideo 640 480 false)) = Mounted s
    /\ nextTask (wgl (run [Stop; SourceResize 10 10; Start] s)) = Timeout.
Proof.
  eexists. split; [vm_compute; reflexivity |].
  apply (strategy_is_fixed
           (sampleHost goodDriver (mkVideo 640 480 false)) _
           [Stop; SourceResize 10 10; Start]).
  vm_compute; reflexivity.
Defined.

(** X20.  On the timer strategy a cycle takes two steps: when the timer
    fires nothing is drawn and no cycle runs, an animation-frame callback
    is requested instead; when that one fires the cycle runs, draws once
    and sets the timer again. *)
Theorem timer_cycle_has_two_stages (s : State) :
  stopped (wgl s) = false ->
  requestVideoFrameCallbackIsAvailable (wgl s) = false ->
  tasks s = [Timeout] ->
  let s1 := step (Fire Timeout) s in
  let s2 := step (Fire AnimationFrame) s1 in
  (glCalls s1 = glCalls s /\ entered s1 = entered s
   /\ tasks s1 = [AnimationFrame])
  /\ (draws s2 = (draws s + 1)%nat /\ entered s2 = S (entered s)
      /\ tasks s2 = [Timeout]).
Proof.
  intros Hs Ha Ht s1 s2.
  assert (s1 = arm AnimationFrame (set_tasks [] s)) as E1.
  { unfold s1. cbn [step]. now rewrite Ht. }
  assert (s2 = processFrame getConfig (set_tasks [] s)) as E2.
  { unfold s2. rewrite E1. reflexivity. }
  split; [rewrite E1; now repeat split |].
  assert (stopped (wgl (set_tasks [] s)) = false) as Hs' by exact Hs.
  destruct (processFrame_effect getConfig _ Hs')
    as (_ & _ & Htk & _ & _ & Hen).
  rewrite E2, Htk, Hen, processFrame_draws by exact Hs'.
  unfold nextTask; fields. rewrite Ha, andb_false_r. now repeat split.
Qed.

Lemma timer_cycle_has_two_stages_witness :
  draws (step (Fire Timeout) timerPipeline) = 0%nat
  /\ draws (step (Fire AnimationFrame) (step (Fire Timeout) timerPipeline))
     = 1%nat.
Proof.
  destruct (timer_cycle_has_two_stages timerPipeline eq_refl eq_refl eq_refl)
    as [(Hg & _) (Hd & _)].
  split; [unfold draws; now rewrite Hg | exact Hd].
Defined.

Lemma step_video (e : event) (s : State) :
  isSourceResize e = false -> video (step e s) = video s.
Proof.
  intros He. destruct e as [| | t | w h]; try discriminate; cbn [step].
  - unfold start, startProcessing. destruct (refsAttached s); cbn [negb];
      [| reflexivity].
    now destruct (processFrame_wgl getConfig (set_stopped false s))
      as [_ ->].
  - reflexivity.
  - destruct (remove1 t (tasks s)) as [ts |]; [| reflexivity].
    destruct t; cbn [callback]; try reflexivity;
      now destruct (processFrame_wgl getConfig (set_tasks ts s)) as [_ ->].
Qed.

(** X21.  Once the canvas has the native size of the video it keeps it, and
    no viewport call is issued, for as long as the source does not change
    size: no start, stop, frame or timer event resizes it. *)
Theorem synced_is_kept (es : list event) (s : State) :
  synced s -> noSourceResize es = true ->
  synced (run es s) /\ viewports (run es s) = viewports s.
Proof.
  revert s. induction es as [| e es IH]; intros s Hsy Hes.
  - now split.
  - cbn in Hes. apply andb_true_iff in Hes as [He Hes].
    apply negb_true_iff in He.
    assert ((videoWidth (video s) =? width (canvas s))%N = true) as Hw.
    { rewrite Hsy. apply N.eqb_refl. }
    destruct (step_same_width e s (or_introl Hw)) as [Hc Hv].
    assert (synced (step e s)) as Hsy'.
    { unfold synced. now rewrite Hc, (step_video e s He). }
    destruct (IH (step e s) Hsy' Hes) as [Hsy'' Hv'].
    cbn [run]. split; [exact Hsy'' | now rewrite Hv', Hv].
Qed.

Lemma synced_is_kept_witness :
  synced (run [Fire VideoFrameCallback; Stop; Start] running640)
  /\ viewports (run [Fire VideoFrameCallback; Stop; Start] running640)
     = viewports running640.
Proof.
  apply (synced_is_kept [Fire VideoFrameCallback; Stop; Start] running640);
    reflexivity.
Defined.

End PipelineMore.
